(** * SuperMap.Format.JSON (src/common/format/JSON.js)

    A shallow embedding of the JSON reader and writer of iClient-JavaScript,
    and the properties of its serializers.

    The class keeps its formatting state ([level], [pretty], ...) in fields
    of the instance and mutates them while it recurses; the embedding threads
    the instance through every call, in a state-and-exception monad, so that
    what a call leaves behind in the instance can be stated. *)

From Stdlib Require Import ZArith List String Ascii Bool Lia.
From Stdlib Require Import DecimalString HexadecimalString.
From Stdlib Require DecimalFacts DecimalPos DecimalN DecimalZ.
Import ListNotations.

Local Open Scope string_scope.
Local Open Scope Z_scope.

(* ================================================================= *)
(** ** JavaScript values seen by the serializers *)

(** Numbers.  The finite numbers of the model are the integers that Number
    holds exactly and without gaps: [Finite z] is the Number [z] for [z] of
    magnitude up to 2^53, and [String(z)] is then its decimal numeral.  A
    [Finite z] beyond that bound stands for no Number; what is stated of
    the texts of numbers is stated within the bound ([safe] below).
    Numbers with a fraction, and the negative zero, are not in the
    model. *)
Inductive number : Type :=
| NaN
| Infinity
| NegInfinity
| Finite (z : Z).

Definition isFinite (n : number) : bool :=
  match n with
  | Finite _ => true
  | _ => false
  end.

Definition Z_toString (z : Z) : string :=
  DecimalString.NilZero.string_of_int (Z.to_int z).

(** [String(number)] *)
Definition String_of_number (n : number) : string :=
  match n with
  | NaN => "NaN"
  | Infinity => "Infinity"
  | NegInfinity => "-Infinity"
  | Finite z => Z_toString z
  end.

(** [n.toString(16)] for a non-negative integer [n] *)
Definition toString16 (n : Z) : string :=
  HexadecimalString.NilZero.string_of_uint (N.to_hex_uint (Z.to_N n)).

(** [b.charCodeAt()] for a one-character string [b] *)
Definition charCodeAt (b : ascii) : Z := Z.of_N (N_of_ascii b).

(** A (valid) Date object, as the code observes it: through its local-time
    getters, and, for the host's serializer, through [toISOString], which
    gives the same instant in UTC as [YYYY-MM-DDTHH:mm:ss.sssZ]. *)
Record date : Type := MkDate {
  getFullYear : Z;
  getMonth : Z;
  getDate : Z;
  getHours : Z;
  getMinutes : Z;
  getSeconds : Z;
  toISOString : string
}.

(** Reading [object[key]] either gives a value or, for an accessor property
    whose getter fails, throws. *)
Inductive getter (V : Type) : Type :=
| Returns (v : V)
| Throws.
Arguments Returns {V} v.
Arguments Throws {V}.

(** One entry of the [for (key in object)] enumeration: the key, whether
    [object.hasOwnProperty(key)] holds, and what reading the property does. *)
Record property (V : Type) : Type := Property {
  key : string;
  own : bool;
  get : getter V
}.
Arguments Property {V} key own get.
Arguments key {V} p.
Arguments own {V} p.
Arguments get {V} p.

(** Values.  An array is the list of its elements, which are data
    properties (a hole reads as [JUndefined]; an array with an accessor
    for an element is not in the model).  A plain object is the list of its
    enumerable properties in [for ... in] order, inherited ones included,
    with distinct keys; it has no other property of its own, and beyond
    the inherited ones its prototype chain ends in [Object.prototype],
    untouched.  A property may have any name, also
    [constructor], [hasOwnProperty] or [toJSON], which the code or the host
    read by name (see [read_property]).  Values are finite trees: no
    object contains itself.  [JFunction] is the function [function () {}]:
    called, it returns [undefined] and does nothing else. *)
Unset Elimination Schemes.
Inductive value : Type :=
| JUndefined
| JNull
| JBoolean (b : bool)
| JNumber (n : number)
| JBigInt (z : Z)
| JString (s : string)
| JSymbol
| JFunction
| JDate (d : date)
| JArray (elements : list value)
| JObject (properties : list (property value)).
Set Elimination Schemes.

Section value_induction.
Variable P : value -> Prop.
Hypothesis Hundefined : P JUndefined.
Hypothesis Hnull : P JNull.
Hypothesis Hboolean : forall b, P (JBoolean b).
Hypothesis Hnumber : forall n, P (JNumber n).
Hypothesis Hbigint : forall z, P (JBigInt z).
Hypothesis Hstring : forall s, P (JString s).
Hypothesis Hsymbol : P JSymbol.
Hypothesis Hfunction : P JFunction.
Hypothesis Hdate : forall d, P (JDate d).
Hypothesis Harray : forall l, Forall P l -> P (JArray l).
Hypothesis Hobject :
  forall ps, Forall (fun p => forall v, get p = Returns v -> P v) ps ->
             P (JObject ps).

Fixpoint value_ind (v : value) : P v :=
  match v with
  | JUndefined => Hundefined
  | JNull => Hnull
  | JBoolean b => Hboolean b
  | JNumber n => Hnumber n
  | JBigInt z => Hbigint z
  | JString s => Hstring s
  | JSymbol => Hsymbol
  | JFunction => Hfunction
  | JDate d => Hdate d
  | JArray l =>
      Harray l
        ((fix elements (l : list value) : Forall P l :=
            match l with
            | [] => Forall_nil _
            | x :: l' => Forall_cons x (value_ind x) (elements l')
            end) l)
  | JObject ps =>
      Hobject ps
        ((fix properties (ps : list (property value))
            : Forall (fun p => forall v, get p = Returns v -> P v) ps :=
            match ps with
            | [] => Forall_nil _
            | p :: ps' =>
                Forall_cons p
                  (match p as p0
                         return forall v, get p0 = Returns v -> P v with
                   | Property k o (Returns w) =>
                       fun v (E : Returns w = Returns v) =>
                         match E in (_ = g)
                               return match g with
                                      | Returns u => P u
                                      | Throws => True
                                      end with
                         | eq_refl => value_ind w
                         end
                   | Property k o Throws =>
                       fun v (E : Throws = Returns v) =>
                         match E in (_ = g)
                               return match g with
                                      | Returns u => P u
                                      | Throws => True
                                      end with
                         | eq_refl => I
                         end
                   end)
                  (properties ps')
            end) ps)
  end.
End value_induction.

(** [typeof value] *)
Definition typeof (v : value) : string :=
  match v with
  | JUndefined => "undefined"
  | JNull => "object"
  | JBoolean _ => "boolean"
  | JNumber _ => "number"
  | JBigInt _ => "bigint"
  | JString _ => "string"
  | JSymbol => "symbol"
  | JFunction => "function"
  | JDate _ => "object"
  | JArray _ => "object"
  | JObject _ => "object"
  end.

(* ================================================================= *)
(** ** The instance and the monad of its methods *)

(** The fields of a [SuperMap.Format.JSON] instance.  [keepData] and [data]
    come from the parent class [SuperMap.Format].  [level_history] is not a
    field of the class: it records, newest first, every value the code
    assigns to [level], so that statements can speak of the level at any
    point of a call. *)
Record JSONFormat : Type := MkJSONFormat {
  indent : string;
  space : string;
  newline : string;
  level : Z;
  pretty : bool;
  nativeJSON : bool;
  keepData : bool;
  data : value;
  level_history : list Z
}.

Definition LF : string := String "010"%char EmptyString.

(** A fresh instance; [native] tells whether the host has [JSON.parse] and
    [JSON.stringify]. *)
Definition new_JSONFormat (native : bool) : JSONFormat :=
  {| indent := "    "; space := " "; newline := LF; level := 0;
     pretty := false; nativeJSON := native;
     keepData := false; data := JNull; level_history := [] |}.

Definition set_pretty (b : bool) (this : JSONFormat) : JSONFormat :=
  {| indent := indent this; space := space this; newline := newline this;
     level := level this; pretty := b; nativeJSON := nativeJSON this;
     keepData := keepData this; data := data this;
     level_history := level_history this |}.

Definition set_level (l : Z) (this : JSONFormat) : JSONFormat :=
  {| indent := indent this; space := space this; newline := newline this;
     level := l; pretty := pretty this; nativeJSON := nativeJSON this;
     keepData := keepData this; data := data this;
     level_history := l :: level_history this |}.

Definition set_data (v : value) (this : JSONFormat) : JSONFormat :=
  {| indent := indent this; space := space this; newline := newline this;
     level := level this; pretty := pretty this;
     nativeJSON := nativeJSON this; keepData := keepData this; data := v;
     level_history := level_history this |}.

Inductive error : Type :=
| TypeError
| SyntaxError
| GetterError.

(** How an evaluation ends: with a value, or with a thrown exception. *)
Inductive completion (A : Type) : Type :=
| Normal (a : A)
| Throw (e : error).
Arguments Normal {A} a.
Arguments Throw {A} e.

(** A method body: it runs on the instance, ends normally or throws, and
    leaves the instance as it has mutated it so far in either case. *)
Definition M (A : Type) : Type := JSONFormat -> completion A * JSONFormat.

Definition ret {A} (a : A) : M A := fun this => (Normal a, this).

Definition throw {A} (e : error) : M A := fun this => (Throw e, this).

Definition bind {A B} (c : M A) (k : A -> M B) : M B :=
  fun this =>
    match c this with
    | (Normal a, this') => k a this'
    | (Throw e, this') => (Throw e, this')
    end.

Definition try_catch {A} (c : M A) (handler : error -> M A) : M A :=
  fun this =>
    match c this with
    | (Normal a, this') => (Normal a, this')
    | (Throw e, this') => handler e this'
    end.

(** Reading a field, [this.f] *)
Definition field {A} (f : JSONFormat -> A) : M A :=
  fun this => (Normal (f this), this).

(** Assigning to fields *)
Definition assign (f : JSONFormat -> JSONFormat) : M unit :=
  fun this => (Normal tt, f this).

(** The completion of a host primitive that does not touch the instance *)
Definition host {A} (c : completion A) : M A := fun this => (c, this).

Notation "x <- c ;; k" := (bind c (fun x => k))
  (at level 61, c at next level, right associativity).
Notation "c ;;; k" := (bind c (fun _ => k))
  (at level 61, right associativity).

(* ================================================================= *)
(** ** Reading a property by its name *)

(** The enumerable property [name] of an object, the own one before an
    inherited one *)
Definition lookup (name : string) (object : list (property value))
  : option (property value) :=
  match find (fun p => own p && String.eqb (key p) name) object with
  | Some p => Some p
  | None => find (fun p => String.eqb (key p) name) object
  end.

(** [object.name] for a plain object.  [Normal None] is what the object
    gets from [Object.prototype] when it has no enumerable property of
    that name: the methods of [Object.prototype] for [constructor] and
    [hasOwnProperty], [undefined] for [toJSON]. *)
Definition read_property (name : string) (object : list (property value))
  : completion (option value) :=
  match lookup name object with
  | None => Normal None
  | Some p =>
      match get p with
      | Returns v => Normal (Some v)
      | Throws => Throw GetterError
      end
  end.

(** Whether what a read has given can be called: the functions of the
    model can, and nothing else. *)
Definition callable (r : option value) : bool :=
  match r with
  | Some JFunction => true
  | _ => false
  end.

(* ================================================================= *)
(** ** The host's JSON.stringify

    [JSON.stringify(value)] with one argument, after ECMA-262
    (SerializeJSONProperty, QuoteJSONString), on the values of the model.
    [None] is the result [undefined].  A Date goes through the [toJSON]
    of [Date.prototype], which returns [toISOString()] (the Dates of the
    model are valid).  A plain object whose [toJSON] is a function goes
    through that: the functions of the model return [undefined], and so
    does stringify then.  Strings are quoted character by character; the
    characters of the model are below U+0100, where no lone surrogate
    is. *)

Definition dquote : string := String "034"%char EmptyString.

Definition hex_digit (n : Z) : string :=
  match n with
  | 10 => "a" | 11 => "b" | 12 => "c" | 13 => "d" | 14 => "e" | 15 => "f"
  | _ => Z_toString n
  end.

Definition QuoteJSONChar (c : ascii) : string :=
  let n := charCodeAt c in
  if n =? 8 then "\b"
  else if n =? 9 then "\t"
  else if n =? 10 then "\n"
  else if n =? 12 then "\f"
  else if n =? 13 then "\r"
  else if n =? 34 then "\" ++ dquote
  else if n =? 92 then "\\"
  else if n <? 32 then "\u00" ++ hex_digit (n / 16) ++ hex_digit (n mod 16)
  else String c EmptyString.

Fixpoint QuoteJSONChars (s : string) : string :=
  match s with
  | EmptyString => EmptyString
  | String c s' => QuoteJSONChar c ++ QuoteJSONChars s'
  end.

Definition QuoteJSONString (s : string) : string :=
  dquote ++ QuoteJSONChars s ++ dquote.

Fixpoint SerializeJSONProperty (v : value) : completion (option string) :=
  match v with
  | JUndefined | JSymbol | JFunction => Normal None
  | JNull => Normal (Some "null")
  | JBoolean b => Normal (Some (if b then "true" else "false"))
  | JNumber n =>
      Normal (Some (if isFinite n then String_of_number n else "null"))
  | JBigInt _ => Throw TypeError
  | JString s => Normal (Some (QuoteJSONString s))
  | JDate d => Normal (Some (QuoteJSONString (toISOString d)))
  | JArray elements =>
      match
        (fix SerializeJSONArray (l : list value) : completion (list string) :=
           match l with
           | [] => Normal []
           | x :: l' =>
               match SerializeJSONProperty x with
               | Throw e => Throw e
               | Normal strP =>
                   match SerializeJSONArray l' with
                   | Throw e => Throw e
                   | Normal partial =>
                       Normal (match strP with
                               | None => "null"
                               | Some str => str
                               end :: partial)
                   end
               end
           end) elements
      with
      | Throw e => Throw e
      | Normal partial =>
          Normal (Some ("[" ++ String.concat "," partial ++ "]"))
      end
  | JObject properties =>
      match read_property "toJSON" properties with
      | Throw e => Throw e
      | Normal toJSON =>
      if callable toJSON then Normal None else
      match
        (fix SerializeJSONObject (ps : list (property value))
           : completion (list string) :=
           match ps with
           | [] => Normal []
           | Property P false _ :: ps' => SerializeJSONObject ps'
           | Property P true Throws :: _ => Throw GetterError
           | Property P true (Returns x) :: ps' =>
               match SerializeJSONProperty x with
               | Throw e => Throw e
               | Normal strP =>
                   match SerializeJSONObject ps' with
                   | Throw e => Throw e
                   | Normal partial =>
                       Normal (match strP with
                               | None => partial
                               | Some str =>
                                   (QuoteJSONString P ++ ":" ++ str) :: partial
                               end)
                   end
               end
           end) properties
      with
      | Throw e => Throw e
      | Normal partial =>
          Normal (Some ("{" ++ String.concat "," partial ++ "}"))
      end
      end
  end.

Definition JSON_stringify (v : value) : completion (option string) :=
  SerializeJSONProperty v.

(* ================================================================= *)
(** ** The methods of the class *)

(** [pieces.join('')] *)
Definition join (pieces : list string) : string :=
  String.concat EmptyString pieces.

(** [writeIndent]: the loop pushes [this.indent] once for every [i] with
    [0 <= i < this.level]. *)
Definition writeIndent : M string :=
  fun this =>
    let pieces :=
      if pretty this then repeat (indent this) (Z.to_nat (level this))
      else [] in
    (Normal (join pieces), this).

Definition writeNewline : M string :=
  fun this =>
    (Normal (if pretty this then newline this else EmptyString), this).

Definition writeSpace : M string :=
  fun this =>
    (Normal (if pretty this then space this else EmptyString), this).

(** *** serialize.string *)

(** The table [m] of the two-character escapes *)
Definition m (b : ascii) : option string :=
  if Ascii.eqb b "008"%char then Some "\b"
  else if Ascii.eqb b "009"%char then Some "\t"
  else if Ascii.eqb b "010"%char then Some "\n"
  else if Ascii.eqb b "012"%char then Some "\f"
  else if Ascii.eqb b "013"%char then Some "\r"
  else if Ascii.eqb b "034"%char then Some ("\" ++ dquote)
  else if Ascii.eqb b "092"%char then Some "\\"
  else None.

(** The character class of both regular expressions: a double quote, a
    backslash, or a character from [\x00] to [\x1f]. *)
Definition in_class (b : ascii) : bool :=
  Ascii.eqb b "034"%char || Ascii.eqb b "092"%char
  || ((0 <=? charCodeAt b) && (charCodeAt b <=? 31)).

(** [test] of the first regular expression on [string] *)
Fixpoint test (s : string) : bool :=
  match s with
  | EmptyString => false
  | String b s' => in_class b || test s'
  end.

(** The callback handed to [replace] *)
Definition replacer (b : ascii) : string :=
  match m b with
  | Some c => c
  | None =>
      let c := charCodeAt b in
      "\u00" ++ toString16 (c / 16) ++ toString16 (c mod 16)
  end.

(** [string.replace] with the second regular expression, which is global:
    every character of the class goes through the callback. *)
Fixpoint replace (s : string) : string :=
  match s with
  | EmptyString => EmptyString
  | String b s' =>
      (if in_class b then replacer b else String b EmptyString) ++ replace s'
  end.

Definition serialize_string (s : string) : string :=
  if test s then dquote ++ replace s ++ dquote
  else dquote ++ s ++ dquote.

(** *** serialize.number, serialize.boolean, serialize.date *)

Definition serialize_number (n : number) : string :=
  if isFinite n then String_of_number n else "null".

Definition serialize_boolean (b : bool) : string :=
  if b then "true" else "false".

(** The local function [format] of serialize.date; its result is
    concatenated to a string in every use. *)
Definition format (n : Z) : string :=
  if n <? 10 then "0" ++ Z_toString n else Z_toString n.

Definition serialize_date (d : date) : string :=
  dquote ++ Z_toString (getFullYear d) ++ "-" ++
  format (getMonth d + 1) ++ "-" ++
  format (getDate d) ++ "T" ++
  format (getHours d) ++ ":" ++
  format (getMinutes d) ++ ":" ++
  format (getSeconds d) ++ dquote.

(** *** write *)

(** The keys of the table [serialize]: [this.serialize[type]] is a function
    for these and [undefined] for every other [type]. *)
Definition has_serializer (type : string) : bool :=
  existsb (String.eqb type)
    ["object"; "array"; "string"; "number"; "boolean"; "date"].

(** The body of [write], given what [this.serialize[type].apply(this,
    [value])] does.  The result [None] is [null]; it is also what the
    host's stringify returns as [undefined], which it does for no value
    that has a serializer. *)
Definition write_with (serialize : value -> M string)
    (value : value) (pretty_ : bool) : M (option string) :=
  assign (set_pretty pretty_) ;;;
  let json := None in
  let type := typeof value in
  if has_serializer type then
    try_catch
      (p <- field pretty ;;
       native <- field nativeJSON ;;
       if negb p && native then host (JSON_stringify value)
       else (s <- serialize value ;; ret (Some s)))
      (fun err => ret json)
  else ret json.

(** [write] at a string: the dispatch ends in serialize.string, which does
    not call [write] again.  The object serializer writes its keys so. *)
Definition write_string (s : string) : bool -> M (option string) :=
  write_with (fun _ => ret (serialize_string s)) (JString s).

(** [object.hasOwnProperty(key)] for a key of the enumeration of a plain
    object; [own_key] tells whether the key is an own property, which is
    what the method of [Object.prototype] answers.  The method is read from
    the object at every call: an own or inherited property of that name
    takes its place, and calling what is not a function is a TypeError. *)
Definition hasOwnProperty (object : list (property value)) (own_key : bool)
  : completion bool :=
  match read_property "hasOwnProperty" object with
  | Throw e => Throw e
  | Normal None => Normal own_key
  | Normal (Some method) =>
      if callable (Some method) then Normal false else Throw TypeError
  end.

Section serializers.
(** [SuperMap.Format.JSON.prototype.write], which the serializers of
    arrays and objects call on every child *)
Variable write : value -> bool -> M (option string).

(** The loop of serialize.array, from index [i] on; [rest] are the
    elements [array[i]], [array[i+1]], ... *)
Fixpoint array_loop (rest : list value) (i : Z) (pieces : list string)
  : M (list string) :=
  match rest with
  | [] => ret pieces
  | array_i :: rest' =>
      p <- field pretty ;;
      json <- write array_i p ;;
      pieces <-
        match json with
        | Some json =>
            let pieces :=
              if 0 <? i then (pieces ++ [","])%list else pieces in
            nl <- writeNewline ;;
            ind <- writeIndent ;;
            ret (pieces ++ [nl; ind; json])%list
        | None => ret pieces
        end ;;
      array_loop rest' (i + 1) pieces
  end.

Definition serialize_array (array : list value) : M string :=
  let pieces := ["["] in
  l <- field level ;;
  assign (set_level (l + 1)) ;;;
  pieces <- array_loop array 0 pieces ;;
  l <- field level ;;
  assign (set_level (l - 1)) ;;;
  nl <- writeNewline ;;
  ind <- writeIndent ;;
  ret (join (pieces ++ [nl; ind; "]"])%list).

(** The [for (key in object)] loop of serialize.object over the
    properties of [object] still to enumerate *)
Fixpoint object_loop (object rest : list (property value))
    (pieces : list string) (addComma : bool) : M (list string) :=
  match rest with
  | [] => ret pieces
  | Property key own_key object_key :: rest' =>
      has <- host (hasOwnProperty object own_key) ;;
      if has : bool then
        p <- field pretty ;;
        keyJSON <- write_string key p ;;
        match object_key with
        | Throws => throw GetterError
        | Returns object_key =>
            p <- field pretty ;;
            valueJSON <- write object_key p ;;
            match keyJSON, valueJSON with
            | Some keyJSON, Some valueJSON =>
                let pieces :=
                  if addComma then (pieces ++ [","])%list else pieces in
                nl <- writeNewline ;;
                ind <- writeIndent ;;
                sp <- writeSpace ;;
                object_loop object rest'
                  (pieces ++ [nl; ind; keyJSON; ":"; sp; valueJSON])%list true
            | _, _ => object_loop object rest' pieces addComma
            end
        end
      else object_loop object rest' pieces addComma
  end.

(** serialize.object on a plain object.  Of its three special cases, the
    first ([object == null]) does not apply; the other two read
    [object.constructor] and compare it with [Date] and with [Array], which
    no value that a plain object of the model has there is. *)
Definition serialize_object (object : list (property value)) : M string :=
  host (read_property "constructor" object) ;;;
  host (read_property "constructor" object) ;;;
  let pieces := ["{"] in
  l <- field level ;;
  assign (set_level (l + 1)) ;;;
  pieces <- object_loop object object pieces false ;;
  l <- field level ;;
  assign (set_level (l - 1)) ;;;
  nl <- writeNewline ;;
  ind <- writeIndent ;;
  ret (join (pieces ++ [nl; ind; "}"])%list).

(** [this.serialize[typeof value].apply(this, [value])], with the three
    special cases of serialize.object: [object == null], a Date, an
    Array.  The table has no function for the last four types, and
    applying what it has there fails. *)
Definition serialize (value : value) : M string :=
  match value with
  | JNull => ret "null"
  | JDate d => ret (serialize_date d)
  | JArray array => serialize_array array
  | JObject object => serialize_object object
  | JString s => ret (serialize_string s)
  | JNumber n => ret (serialize_number n)
  | JBoolean b => ret (serialize_boolean b)
  | JUndefined | JBigInt _ | JSymbol | JFunction => throw TypeError
  end.
End serializers.

Fixpoint write (value : value) (pretty_ : bool) {struct value}
  : M (option string) :=
  write_with (serialize write) value pretty_.

(** *** read *)

(** The second argument of [read]: a function of a key and a value, which
    may throw. *)
Definition reviver : Type := string -> value -> completion value.

Section reader.
(** The host's [JSON.parse(json, filter)]; [None] is an absent filter. *)
Variable JSON_parse : string -> option reviver -> completion value.

Definition read (json : string) (filter : option reviver) : M value :=
  let object := JUndefined in
  native <- field nativeJSON ;;
  object <-
    (if native then
       try_catch (host (JSON_parse json filter)) (fun e => ret object)
     else ret object) ;;
  keep <- field keepData ;;
  (if keep then assign (set_data object) else ret tt) ;;;
  ret object.
End reader.

(* ================================================================= *)
(** ** A reference parser for the host

    A [JSON.parse] for the texts of the model, with the reviver walk of
    ECMA-262 (InternalizeJSONProperty).  It answers as the host does on
    the texts that the host's stringify gives for the values of JSON of
    the model ([json_value] below), and it refuses what is not JSON.
    Outside the model are the texts of numbers with a fraction or an
    exponent, which it refuses although the host reads them, those of
    integers beyond 2^53, which it keeps where the host rounds, and
    objects with keys made of digits, which it leaves in the order of the
    text.  It stands for the host of [read] where a statement needs a
    parser that runs; what is proved of [read] alone holds for every
    host. *)

Definition is_whitespace (c : ascii) : bool :=
  existsb (Ascii.eqb c) ["032"; "009"; "010"; "013"]%char.

Fixpoint skip_whitespace (s : string) : string :=
  match s with
  | String c s' => if is_whitespace c then skip_whitespace s' else s
  | EmptyString => s
  end.

Definition is_digit (c : ascii) : bool :=
  (48 <=? charCodeAt c) && (charCodeAt c <=? 57).

Definition hex_value (c : ascii) : option Z :=
  let n := charCodeAt c in
  if (48 <=? n) && (n <=? 57) then Some (n - 48)
  else if (97 <=? n) && (n <=? 102) then Some (n - 87)
  else if (65 <=? n) && (n <=? 70) then Some (n - 55)
  else None.

(** The digits a string starts with, and what follows them *)
Fixpoint span_digits (s : string) : string * string :=
  match s with
  | String c s' =>
      if is_digit c
      then let (digits, rest) := span_digits s' in (String c digits, rest)
      else (EmptyString, s)
  | EmptyString => (EmptyString, s)
  end.

(** An integer without sign: some digits, without a zero in front unless
    the zero is all there is; a fraction or an exponent after them is
    refused. *)
Definition parse_natural (s : string) : option (Z * string) :=
  let (digits, rest) := span_digits s in
  match DecimalString.NilEmpty.uint_of_string digits with
  | Some d =>
      if Decimal.uint_beq (Decimal.unorm d) d
      then match rest with
           | String c _ =>
               if existsb (Ascii.eqb c) ["."; "e"; "E"]%char then None
               else Some (Z.of_N (N.of_uint d), rest)
           | EmptyString => Some (Z.of_N (N.of_uint d), rest)
           end
      else None
  | None => None
  end.

Definition char_of_code (n : Z) : ascii := ascii_of_N (Z.to_N n).

(** The characters of a string after its opening quote *)
Fixpoint parse_characters (s : string) : option (string * string) :=
  match s with
  | EmptyString => None
  | String "034" rest => Some (EmptyString, rest)
  | String "092" (String e rest) =>
      let continue (c : ascii) (r : option (string * string)) :=
        match r with
        | Some (str, rest') => Some (String c str, rest')
        | None => None
        end in
      match e, rest with
      | "034"%char, _ => continue "034"%char (parse_characters rest)
      | "092"%char, _ => continue "092"%char (parse_characters rest)
      | "/"%char, _ => continue "/"%char (parse_characters rest)
      | "b"%char, _ => continue "008"%char (parse_characters rest)
      | "f"%char, _ => continue "012"%char (parse_characters rest)
      | "n"%char, _ => continue "010"%char (parse_characters rest)
      | "r"%char, _ => continue "013"%char (parse_characters rest)
      | "t"%char, _ => continue "009"%char (parse_characters rest)
      | "u"%char, String h1 (String h2 (String h3 (String h4 rest'))) =>
          match hex_value h1, hex_value h2, hex_value h3, hex_value h4 with
          | Some 0, Some 0, Some d3, Some d4 =>
              continue (char_of_code (16 * d3 + d4)) (parse_characters rest')
          | _, _, _, _ => None
          end
      | _, _ => None
      end
  | String "092" EmptyString => None
  | String c rest =>
      if charCodeAt c <? 32 then None
      else match parse_characters rest with
           | Some (str, rest') => Some (String c str, rest')
           | None => None
           end
  end.

Definition parse_literal (word : string) (v : value) (s : string)
  : option (value * string) :=
  if String.prefix word s
  then Some (v, substring (length word) (length s - length word) s)
  else None.

(** A later member with the same key replaces the value of the earlier. *)
Fixpoint define_property (k : string) (v : value)
    (ps : list (property value)) : list (property value) :=
  match ps with
  | [] => [Property k true (Returns v)]
  | p :: ps' =>
      if String.eqb (key p) k then Property k true (Returns v) :: ps'
      else p :: define_property k v ps'
  end.

Fixpoint parse_value (fuel : nat) (s : string) : option (value * string) :=
  match fuel with
  | O => None
  | S fuel =>
      match skip_whitespace s with
      | EmptyString => None
      | String c rest =>
          if Ascii.eqb c "-" then
            match parse_natural rest with
            | Some (n, rest') => Some (JNumber (Finite (- n)), rest')
            | None => None
            end
          else if is_digit c then
            match parse_natural (String c rest) with
            | Some (n, rest') => Some (JNumber (Finite n), rest')
            | None => None
            end
          else if Ascii.eqb c "n" then
            parse_literal "null" JNull (String c rest)
          else if Ascii.eqb c "t" then
            parse_literal "true" (JBoolean true) (String c rest)
          else if Ascii.eqb c "f" then
            parse_literal "false" (JBoolean false) (String c rest)
          else if Ascii.eqb c "034" then
            match parse_characters rest with
            | Some (str, rest') => Some (JString str, rest')
            | None => None
            end
          else if Ascii.eqb c "[" then
            match skip_whitespace rest with
            | EmptyString => None
            | String c' rest' =>
                if Ascii.eqb c' "]" then Some (JArray [], rest')
                else match parse_elements fuel (String c' rest') with
                     | Some (l, rest'') => Some (JArray l, rest'')
                     | None => None
                     end
            end
          else if Ascii.eqb c "{" then
            match skip_whitespace rest with
            | EmptyString => None
            | String c' rest' =>
                if Ascii.eqb c' "}" then Some (JObject [], rest')
                else match parse_members fuel (String c' rest') [] with
                     | Some (ps, rest'') => Some (JObject ps, rest'')
                     | None => None
                     end
            end
          else None
      end
  end
with parse_elements (fuel : nat) (s : string) : option (list value * string) :=
  match fuel with
  | O => None
  | S fuel =>
      match parse_value fuel s with
      | Some (v, rest) =>
          match skip_whitespace rest with
          | EmptyString => None
          | String c rest' =>
              if Ascii.eqb c "," then
                match parse_elements fuel rest' with
                | Some (l, rest'') => Some (v :: l, rest'')
                | None => None
                end
              else if Ascii.eqb c "]" then Some ([v], rest')
              else None
          end
      | None => None
      end
  end
with parse_members (fuel : nat) (s : string) (ps : list (property value))
  : option (list (property value) * string) :=
  match fuel with
  | O => None
  | S fuel =>
      match skip_whitespace s with
      | EmptyString => None
      | String c rest =>
          if Ascii.eqb c "034" then
            match parse_characters rest with
            | Some (k, rest) =>
                match skip_whitespace rest with
                | EmptyString => None
                | String c rest =>
                    if Ascii.eqb c ":" then
                      match parse_value fuel rest with
                      | Some (v, rest) =>
                          let ps := define_property k v ps in
                          match skip_whitespace rest with
                          | EmptyString => None
                          | String c rest' =>
                              if Ascii.eqb c "," then
                                parse_members fuel rest' ps
                              else if Ascii.eqb c "}" then Some (ps, rest')
                              else None
                          end
                      | None => None
                      end
                    else None
                end
            | None => None
            end
          else None
      end
  end.

(** The reviver walk: children first, then the value itself under its key.
    A child for which the reviver gives [undefined] is deleted (in an array
    it leaves a hole). *)
Fixpoint internalize (f : reviver) (name : string) (v : value)
  : completion value :=
  match
    match v with
    | JArray elements =>
        match
          (fix walk (l : list value) (i : Z) : completion (list value) :=
             match l with
             | [] => Normal []
             | x :: l' =>
                 match internalize f (Z_toString i) x with
                 | Throw e => Throw e
                 | Normal x' =>
                     match walk l' (i + 1) with
                     | Throw e => Throw e
                     | Normal r => Normal (x' :: r)
                     end
                 end
             end) elements 0
        with
        | Throw e => Throw e
        | Normal l => Normal (JArray l)
        end
    | JObject properties =>
        match
          (fix walk (ps : list (property value))
             : completion (list (property value)) :=
             match ps with
             | [] => Normal []
             | Property k true (Returns x) :: ps' =>
                 match internalize f k x with
                 | Throw e => Throw e
                 | Normal x' =>
                     match walk ps' with
                     | Throw e => Throw e
                     | Normal r =>
                         Normal (match x' with
                                 | JUndefined => r
                                 | _ => Property k true (Returns x') :: r
                                 end)
                     end
                 end
             | p :: ps' =>
                 match walk ps' with
                 | Throw e => Throw e
                 | Normal r => Normal (p :: r)
                 end
             end) properties
        with
        | Throw e => Throw e
        | Normal ps => Normal (JObject ps)
        end
    | _ => Normal v
    end
  with
  | Throw e => Throw e
  | Normal v' => f name v'
  end.

Definition reference_JSON_parse (text : string) (filter : option reviver)
  : completion value :=
  match parse_value (2 * length text + 2) text with
  | Some (v, rest) =>
      match skip_whitespace rest with
      | EmptyString =>
          match filter with
          | Some f => internalize f EmptyString v
          | None => Normal v
          end
      | _ => Throw SyntaxError
      end
  | None => Throw SyntaxError
  end.

(* ================================================================= *)
(** ** Definitions used in the statements *)

(** A character that needs no escape: not below 0x20, not a double quote,
    not a backslash. *)
Definition clean_char (c : ascii) : Prop :=
  32 <= charCodeAt c /\ c <> "034"%char /\ c <> "092"%char.

Definition clean (s : string) : Prop :=
  Forall clean_char (list_ascii_of_string s).

(** The escape of one character, as the specification words it. *)
Definition escape_char (c : ascii) : string :=
  if Ascii.eqb c "008"%char then "\b"
  else if Ascii.eqb c "009"%char then "\t"
  else if Ascii.eqb c "010"%char then "\n"
  else if Ascii.eqb c "012"%char then "\f"
  else if Ascii.eqb c "013"%char then "\r"
  else if Ascii.eqb c "034"%char then "\" ++ dquote
  else if Ascii.eqb c "092"%char then "\\"
  else if charCodeAt c <=? 31
       then "\u00" ++ hex_digit (charCodeAt c / 16)
                   ++ hex_digit (charCodeAt c mod 16)
  else String c EmptyString.

Fixpoint escape (s : string) : string :=
  match s with
  | EmptyString => EmptyString
  | String c s' => escape_char c ++ escape s'
  end.

(** No loop of the custom serializers is left by a throw: in every plain
    object that they enter, reached through arrays and through the own
    properties that the loops read, every call of [hasOwnProperty] returns
    and every read of an own property returns.  An object whose
    [constructor] cannot be read is not entered. *)
Fixpoint loops_finish (v : value) : bool :=
  match v with
  | JArray elements => forallb loops_finish elements
  | JObject properties =>
      match read_property "constructor" properties with
      | Throw _ => true
      | Normal _ =>
          forallb (fun p => match p with
                            | Property _ own_key g =>
                                match hasOwnProperty properties own_key with
                                | Throw _ => false
                                | Normal false => true
                                | Normal true =>
                                    match g with
                                    | Returns x => loops_finish x
                                    | Throws => false
                                    end
                                end
                            end) properties
      end
  | _ => true
  end.

(** What [loops_finish] asks of one property of an object *)
Definition entry_finishes (object : list (property value))
    (p : property value) : bool :=
  match p with
  | Property _ own_key g =>
      match hasOwnProperty object own_key with
      | Throw _ => false
      | Normal false => true
      | Normal true =>
          match g with
          | Returns x => loops_finish x
          | Throws => false
          end
      end
  end.

(** The own enumerable properties of a plain object that hold a value, as
    pairs of a key and a value *)
Definition own_enumerable (object : list (property value))
  : list (string * value) :=
  flat_map (fun p => match p with
                     | Property key true (Returns x) => [(key, x)]
                     | _ => []
                     end) object.

(** The pairs that serialize.object emits, as the specification words it:
    for each own key, in order, the key and the value are written, and the
    pair is emitted when neither is [null]. *)
Fixpoint object_pairs (pairs : list (string * value)) : M (list string) :=
  match pairs with
  | [] => ret []
  | (key, x) :: rest =>
      p <- field pretty ;;
      keyJSON <- write (JString key) p ;;
      p <- field pretty ;;
      valueJSON <- write x p ;;
      match keyJSON, valueJSON with
      | Some keyJSON, Some valueJSON =>
          nl <- writeNewline ;;
          ind <- writeIndent ;;
          sp <- writeSpace ;;
          pairs <- object_pairs rest ;;
          ret ((nl ++ ind ++ keyJSON ++ ":" ++ sp ++ valueJSON) :: pairs)
      | _, _ => object_pairs rest
      end
  end.

(** The text of a plain object: the emitted pairs with a comma between
    neighbours, in braces, at one level deeper. *)
Definition object_text (object : list (property value)) : M string :=
  l <- field level ;;
  assign (set_level (l + 1)) ;;;
  pairs <- object_pairs (own_enumerable object) ;;
  l <- field level ;;
  assign (set_level (l - 1)) ;;;
  nl <- writeNewline ;;
  ind <- writeIndent ;;
  ret ("{" ++ String.concat "," pairs ++ nl ++ ind ++ "}").

(** serialize.object can read a plain object as the specification takes
    for granted: its [hasOwnProperty] is the method of [Object.prototype],
    and reading its [constructor] and its own properties returns. *)
Definition hasOwnProperty_intact (object : list (property value)) : bool :=
  match lookup "hasOwnProperty" object with
  | None => true
  | Some _ => false
  end.

Definition constructor_returns (object : list (property value)) : bool :=
  match read_property "constructor" object with
  | Throw _ => false
  | Normal _ => true
  end.

Definition own_getters_return (object : list (property value)) : bool :=
  forallb (fun p => match p with
                    | Property _ true Throws => false
                    | _ => true
                    end) object.

(** Between two states of the instance, [level] has only been assigned
    values that are not below the level of the first. *)
Definition level_kept_above (this this' : JSONFormat) : Prop :=
  exists assigned,
    level_history this' = (assigned ++ level_history this)%list /\
    Forall (fun l => level this <= l) assigned /\
    level this <= level this'.

(** Values of the examples *)

(** [new Date(2024, 0, 5, 9, 3, 7)] on a host whose local time is UTC *)
Definition date_2024_01_05 : date :=
  MkDate 2024 0 5 9 3 7 "2024-01-05T09:03:07.000Z".

(** [{a: 1, b: function () {}}] *)
Definition object_a1_bfunction : value :=
  JObject [Property "a" true (Returns (JNumber (Finite 1)));
           Property "b" true (Returns JFunction)].

(** [[function () {}, 1]] *)
Definition array_function_1 : value :=
  JArray [JFunction; JNumber (Finite 1)].

(** An object whose only property has a getter that throws *)
Definition object_throwing_getter : value :=
  JObject [Property "x" true Throws].

(** [{hasOwnProperty: 1, a: 2}] *)
Definition object_hasOwnProperty_1_a2 : value :=
  JObject [Property "hasOwnProperty" true (Returns (JNumber (Finite 1)));
           Property "a" true (Returns (JNumber (Finite 2)))].

(** [{toJSON: function () {}}] *)
Definition object_toJSON_function : value :=
  JObject [Property "toJSON" true (Returns JFunction)].

Definition quoted (s : string) : string := dquote ++ s ++ dquote.

(** What the three whitespace helpers return in a given state *)
Definition newline_of (this : JSONFormat) : string :=
  if pretty this then newline this else EmptyString.

Definition indent_of (this : JSONFormat) : string :=
  join (if pretty this then repeat (indent this) (Z.to_nat (level this))
        else []).

Definition space_of (this : JSONFormat) : string :=
  if pretty this then space this else EmptyString.

(** The pieces after one turn of the loop of serialize.array, which has
    written the element at index [i] and is left in [this] *)
Definition array_pieces (i : Z) (pieces : list string)
    (json : option string) (this : JSONFormat) : list string :=
  match json with
  | Some json =>
      ((if 0 <? i then pieces ++ [","] else pieces)
       ++ [newline_of this; indent_of this; json])%list
  | None => pieces
  end.

(** The pieces and the flag after one turn of the loop of serialize.object *)
Definition object_pieces (pieces : list string) (addComma : bool)
    (keyJSON : string) (valueJSON : option string) (this : JSONFormat)
  : list string * bool :=
  match valueJSON with
  | Some valueJSON =>
      (((if addComma then pieces ++ [","] else pieces)
        ++ [newline_of this; indent_of this; keyJSON; ":"; space_of this;
            valueJSON])%list, true)
  | None => (pieces, addComma)
  end.

(** The text a list of pairs adds after the pieces so far *)
Definition pairs_text (addComma : bool) (pairs : list string) : string :=
  match pairs with
  | [] => EmptyString
  | _ => (if addComma then "," else EmptyString) ++ String.concat "," pairs
  end.

(** What the theorem on the level says of one value *)
Definition level_discipline (v : value) : Prop :=
  forall p this,
    level_kept_above this (snd (write v p this)) /\
    (loops_finish v = true -> level (snd (write v p this)) = level this).

(** An array of a number, a string with a newline, null, true and an
    object, and the text of the array *)
Definition roundtrip_value : value :=
  JArray [JNumber (Finite 1); JString ("a" ++ LF ++ "b"); JNull;
          JBoolean true;
          JObject [Property "k" true (Returns (JNumber (Finite (-2))))]].


(** The two loops of the host's stringify, by name *)
Fixpoint SerializeJSONArray (l : list value) : completion (list string) :=
  match l with
  | [] => Normal []
  | x :: l' =>
      match SerializeJSONProperty x with
      | Throw e => Throw e
      | Normal strP =>
          match SerializeJSONArray l' with
          | Throw e => Throw e
          | Normal partial =>
              Normal (match strP with
                      | None => "null"
                      | Some str => str
                      end :: partial)
          end
      end
  end.

Fixpoint SerializeJSONObject (ps : list (property value))
  : completion (list string) :=
  match ps with
  | [] => Normal []
  | Property P false _ :: ps' => SerializeJSONObject ps'
  | Property P true Throws :: _ => Throw GetterError
  | Property P true (Returns x) :: ps' =>
      match SerializeJSONProperty x with
      | Throw e => Throw e
      | Normal strP =>
          match SerializeJSONObject ps' with
          | Throw e => Throw e
          | Normal partial =>
              Normal (match strP with
                      | None => partial
                      | Some str =>
                          (QuoteJSONString P ++ ":" ++ str) :: partial
                      end)
          end
      end
  end.

(** The integers that Number holds exactly and without gaps *)
Definition safe (z : Z) : bool := Z.abs z <=? 9007199254740992.

(** The names that the code or the host read from an object *)
Definition special (name : string) : bool :=
  existsb (String.eqb name) ["constructor"; "hasOwnProperty"; "toJSON"].

(** No object of the value, reached through arrays and properties, has an
    enumerable property, own or inherited, with one of these names. *)
Fixpoint ordinary (v : value) : bool :=
  match v with
  | JArray elements => forallb ordinary elements
  | JObject properties =>
      negb (existsb (fun p => special (key p)) properties)
      && forallb (fun p => match p with
                           | Property _ _ (Returns x) => ordinary x
                           | Property _ _ Throws => true
                           end) properties
  | _ => true
  end.

(** The values of JSON: null, booleans, numbers (the integers that Number
    holds exactly, and those that are not finite), strings, arrays of such
    values, and objects whose own properties hold such values. *)
Fixpoint plain_json (v : value) : bool :=
  match v with
  | JNull | JBoolean _ | JString _ => true
  | JNumber n =>
      match n with
      | Finite z => safe z
      | _ => true
      end
  | JArray elements => forallb plain_json elements
  | JObject properties =>
      forallb (fun p => match p with
                        | Property _ true (Returns x) => plain_json x
                        | Property _ true Throws => false
                        | Property _ false _ => true
                        end) properties
  | JUndefined | JBigInt _ | JSymbol | JFunction | JDate _ => false
  end.

(** Between two states of the instance only [level] and [data] differ. *)
Definition same_settings (this this' : JSONFormat) : Prop :=
  pretty this' = pretty this /\
  nativeJSON this' = nativeJSON this /\
  indent this' = indent this /\
  space this' = space this /\
  newline this' = newline this /\
  keepData this' = keepData this.

(** What the frame lemma says of one value *)
Definition keeps_settings (v : value) : Prop :=
  forall this, same_settings this (snd (write v (pretty this) this)).

(** What the agreement of the two paths says of one value *)
Definition paths_agree (v : value) : Prop :=
  plain_json v = true ->
  ordinary v = true ->
  forall this,
    pretty this = false ->
    fst (write v false this) = JSON_stringify v.

(** What may follow a value in a text: nothing, a comma, or the end of an
    array or of an object *)
Definition follows_value (rest : string) : bool :=
  match rest with
  | EmptyString => true
  | String c _ => existsb (Ascii.eqb c) [","; "]"; "}"]%char
  end.

Fixpoint distinct (keys : list string) : bool :=
  match keys with
  | [] => true
  | k :: keys' => negb (existsb (String.eqb k) keys') && distinct keys'
  end.

Fixpoint all_digits (s : string) : bool :=
  match s with
  | EmptyString => true
  | String c s' => is_digit c && all_digits s'
  end.

(** A key made of digits: the keys that are integer indices, which an
    object enumerates before its other keys whatever the order of their
    creation, are among these. *)
Definition index_key (k : string) : bool :=
  match k with
  | EmptyString => false
  | _ => all_digits k
  end.

(** The values of JSON in the model: null, booleans, the integers that
    Number holds exactly, strings, arrays of such values, and objects that
    hold such values in own properties with distinct keys none of which is
    made of digits. *)
Fixpoint json_value (v : value) : bool :=
  match v with
  | JNull | JBoolean _ | JString _ => true
  | JNumber n =>
      match n with
      | Finite z => safe z
      | _ => false
      end
  | JArray elements => forallb json_value elements
  | JObject properties =>
      forallb (fun p => match p with
                        | Property _ true (Returns x) => json_value x
                        | _ => false
                        end) properties
      && distinct (map key properties)
      && negb (existsb (fun p => index_key (key p)) properties)
  | JUndefined | JBigInt _ | JSymbol | JFunction | JDate _ => false
  end.


(** A string of whitespace only *)
Fixpoint whitespace (s : string) : bool :=
  match s with
  | EmptyString => true
  | String c s' => is_whitespace c && whitespace s'
  end.

(** The three strings of pretty printing are whitespace, as JSON needs
    them to be. *)
Definition whitespace_settings (this : JSONFormat) : bool :=
  whitespace (indent this) && whitespace (space this)
  && whitespace (newline this).

(** serialize.object throws on a plain object: reading its [constructor]
    throws, or in its loop a call of [hasOwnProperty] or the read of an own
    property does. *)
Definition object_throws (object : list (property value)) : bool :=
  match read_property "constructor" object with
  | Throw _ => true
  | Normal _ =>
      existsb (fun p => match hasOwnProperty object (own p) with
                        | Throw _ => true
                        | Normal false => false
                        | Normal true =>
                            match get p with
                            | Throws => true
                            | Returns _ => false
                            end
                        end) object
  end.

(** The number of values in a value *)
Fixpoint size (v : value) : Z :=
  match v with
  | JArray elements =>
      1 + (fix sum (l : list value) : Z :=
             match l with
             | [] => 0
             | x :: l' => size x + sum l'
             end) elements
  | JObject properties =>
      1 + (fix sum (ps : list (property value)) : Z :=
             match ps with
             | [] => 0
             | Property _ _ (Returns x) :: ps' => size x + sum ps'
             | Property _ _ Throws :: ps' => sum ps'
             end) properties
  | _ => 1
  end.

(** The level stays, while the value is written, among the integers on
    which the additions and subtractions of Number are exact. *)
Definition level_exact (this : JSONFormat) (v : value) : bool :=
  Z.abs (level this) + size v <=? 9007199254740992.

(** Two instances format alike: they have the same three strings and the
    same level. *)
Definition same_format (this this' : JSONFormat) : Prop :=
  indent this' = indent this /\ space this' = space this /\
  newline this' = newline this /\ level this' = level this.

(** Two instances that write alike: they format alike, with the same
    [pretty], and take the same path, the host's or the custom one. *)
Definition alike (this this' : JSONFormat) : Prop :=
  pretty this' = pretty this /\ same_format this this' /\
  negb (pretty this') && nativeJSON this' =
  negb (pretty this) && nativeJSON this.

(** What the dependence of the text on the instance says of one value *)
Definition text_depends (v : value) : Prop :=
  forall this this',
    alike this this' ->
    fst (write v (pretty this) this) = fst (write v (pretty this') this') /\
    alike (snd (write v (pretty this) this))
          (snd (write v (pretty this') this')).

(** What the converse of the level's restoration says of one value: on the
    custom path, a loop left by a throw leaves the level raised. *)
Definition level_raised (v : value) : Prop :=
  forall this,
    negb (pretty this) && nativeJSON this = false ->
    loops_finish v = false ->
    level this < level (snd (write v (pretty this) this)).

(** What the frame of write says of one value *)
Definition keeps_data (v : value) : Prop :=
  forall this, data (snd (write v (pretty this) this)) = data this.

(** What the reading back of the pretty text says of one value: written
    with pretty enabled and whitespace for the three strings, its text
    starts with no whitespace and no closing bracket, and the reference
    parser reads it back to the value before whatever may follow a value,
    whitespace included, with enough fuel for the text. *)
Definition pretty_parsed_back (v : value) : Prop :=
  json_value v = true ->
  ordinary v = true ->
  forall this,
    pretty this = true -> whitespace_settings this = true ->
    exists c text this1,
      write v true this = (Normal (Some (String c text)), this1) /\
      is_whitespace c = false /\ Ascii.eqb c "]" = false /\
      forall rest fuel,
        follows_value (skip_whitespace rest) = true ->
        (2 * length (String c text ++ rest) < fuel)%nat ->
        parse_value fuel (String c text ++ rest) = Some (v, rest).

(* ================================================================= *)
(** * Properties *)

(* ================================================================= *)
(** ** Strings *)

Lemma append_assoc (a b c : string) : (a ++ b) ++ c = a ++ (b ++ c).
Proof. induction a as [|x a IH]; simpl; [reflexivity | now rewrite IH]. Qed.

Lemma append_empty_r (a : string) : a ++ EmptyString = a.
Proof. induction a as [|x a IH]; simpl; [reflexivity | now rewrite IH]. Qed.

Lemma join_cons (x : string) (l : list string) : join (x :: l) = x ++ join l.
Proof.
  unfold join. destruct l as [|y l]; simpl.
  - now rewrite append_empty_r.
  - reflexivity.
Qed.

Lemma join_app (l1 l2 : list string) : join (l1 ++ l2) = join l1 ++ join l2.
Proof.
  induction l1 as [|x l1 IH].
  - reflexivity.
  - change ((x :: l1) ++ l2)%list with (x :: (l1 ++ l2))%list.
    now rewrite !join_cons, IH, append_assoc.
Qed.

(* ================================================================= *)
(** ** serialize.string *)

Lemma in_class_clean (c : ascii) : in_class c = false <-> clean_char c.
Proof.
  unfold in_class, clean_char.
  rewrite !orb_false_iff, andb_false_iff, !Ascii.eqb_neq, !Z.leb_gt.
  assert (0 <= charCodeAt c) by (unfold charCodeAt; lia).
  intuition lia.
Qed.

Lemma test_clean (s : string) : test s = false <-> clean s.
Proof.
  unfold clean. induction s as [|c s IH]; simpl.
  - split; [constructor | reflexivity].
  - rewrite orb_false_iff, in_class_clean, IH. split.
    + intros [Hc Hs]. now constructor.
    + intros H. inversion H; subst. now split.
Qed.

Lemma replacer_escape (c : ascii) :
  (if in_class c then replacer c else String c EmptyString) = escape_char c.
Proof.
  destruct c as [[] [] [] [] [] [] [] []]; vm_compute; reflexivity.
Qed.

Lemma replace_escape (s : string) : replace s = escape s.
Proof.
  induction s as [|c s IH]; simpl; [reflexivity|].
  now rewrite replacer_escape, IH.
Qed.

Lemma escape_clean (s : string) : clean s -> escape s = s.
Proof.
  unfold clean. induction s as [|c s IH]; simpl; intros H; [reflexivity|].
  inversion H as [|? ? Hc Hs]; subst.
  rewrite (IH Hs), <- replacer_escape.
  apply in_class_clean in Hc. now rewrite Hc.
Qed.

Lemma replace_clean (s : string) : test s = false -> replace s = s.
Proof.
  intros H. rewrite replace_escape. now apply escape_clean, test_clean.
Qed.

(** C6.  serialize.string returns the string in double quotes unchanged
    when no character of it is below 0x20, a double quote or a backslash;
    otherwise it returns, in double quotes, the string with every character
    replaced by its escape: the two-character escapes of backspace, tab,
    newline, form feed, carriage return, double quote and backslash, and
    for any other character below 0x20 the six characters \u00XX, the two
    digits being those of floor(code/16) and code mod 16 in lowercase
    hexadecimal. *)
Theorem serialize_string_escapes (s : string) :
  (clean s -> serialize_string s = dquote ++ s ++ dquote) /\
  (~ clean s -> serialize_string s = dquote ++ escape s ++ dquote).
Proof.
  unfold serialize_string. split; intros H.
  - apply test_clean in H. now rewrite H.
  - destruct (test s) eqn:E.
    + now rewrite replace_escape.
    + apply test_clean in E. contradiction.
Qed.

Lemma serialize_string_escapes_witness :
  serialize_string "plain text" = dquote ++ "plain text" ++ dquote /\
  serialize_string (String "001" ("a" ++ dquote ++ "\" ++ LF)) =
    dquote ++ "\u0001a\" ++ dquote ++ "\\\n" ++ dquote.
Proof.
  split.
  - apply (proj1 (serialize_string_escapes "plain text")).
    unfold clean. cbn [list_ascii_of_string].
    repeat (constructor;
            [unfold clean_char; repeat split;
             [vm_compute; discriminate | discriminate | discriminate]|]).
    constructor.
  - apply (proj2 (serialize_string_escapes
                    (String "001" ("a" ++ dquote ++ "\" ++ LF)))).
    intros H. inversion H as [|c l [Hc _] Hl]. apply Hc. reflexivity.
Defined.

Lemma QuoteJSONChar_replacer (c : ascii) :
  QuoteJSONChar c = (if in_class c then replacer c else String c EmptyString).
Proof.
  destruct c as [[] [] [] [] [] [] [] []]; vm_compute; reflexivity.
Qed.

Lemma QuoteJSONChars_replace (s : string) : QuoteJSONChars s = replace s.
Proof.
  induction s as [|c s IH]; simpl; [reflexivity|].
  now rewrite QuoteJSONChar_replacer, IH.
Qed.

(** The host quotes a string as serialize.string does. *)
Lemma QuoteJSONString_serialize_string (s : string) :
  QuoteJSONString s = serialize_string s.
Proof.
  unfold QuoteJSONString, serialize_string. rewrite QuoteJSONChars_replace.
  destruct (test s) eqn:E; [reflexivity | now rewrite replace_clean].
Qed.

(* ================================================================= *)
(** ** write *)

Lemma write_unfold (v : value) (p : bool) :
  write v p = write_with (serialize write) v p.
Proof. destruct v; reflexivity. Qed.

Lemma write_JString (s : string) (p : bool) :
  write (JString s) p = write_string s p.
Proof. reflexivity. Qed.

(** The values for which the table has no serializer *)
Lemma has_serializer_typeof (v : value) :
  has_serializer (typeof v) = false <->
  v = JUndefined \/ (exists z, v = JBigInt z) \/ v = JSymbol \/ v = JFunction.
Proof.
  destruct v; simpl; split; intros H; try reflexivity; try discriminate;
    eauto; try (now right; left; eexists);
    try (destruct H as [H|[[z H]|[H|H]]]; discriminate).
Qed.

(** C8.  write never throws.  It returns [null] for a value whose type has
    no serializer (undefined, a bigint, a symbol, a function), and when the
    serializer it calls (the host's on the fast path, its own otherwise)
    throws.  When the value has a serializer and this ends normally, write
    returns a string on the custom path; on the fast path it returns what
    the host's stringify returned, which need not be a string: for the
    object [{toJSON: function () {}}] the host returns [undefined] without
    throwing, and so does write, where the custom serializers give the
    text of an empty object. *)
Theorem write_null_or_string (v : value) (p : bool) (this : JSONFormat) :
  (exists json this',
     write v p this = (Normal json, this') /\
     (has_serializer (typeof v) = false -> json = None) /\
     (has_serializer (typeof v) = true ->
      if negb p && nativeJSON this then
        match JSON_stringify v with
        | Throw _ => json = None
        | Normal r => json = r
        end
      else
        match fst (serialize write v (set_pretty p this)) with
        | Throw _ => json = None
        | Normal s => json = Some s
        end)) /\
  (has_serializer (typeof v) = false <->
   v = JUndefined \/ (exists z, v = JBigInt z) \/
   v = JSymbol \/ v = JFunction) /\
  has_serializer (typeof object_toJSON_function) = true /\
  JSON_stringify object_toJSON_function = Normal None /\
  write object_toJSON_function false (new_JSONFormat true) =
    (Normal None, new_JSONFormat true) /\
  fst (write object_toJSON_function false (new_JSONFormat false)) =
    Normal (Some "{}") /\
  fst (write object_toJSON_function true (new_JSONFormat true)) =
    Normal (Some ("{" ++ LF ++ "}")).
Proof.
  split; [|split; [apply has_serializer_typeof | repeat split]].
  rewrite write_unfold.
  unfold write_with, bind, assign, field, try_catch, host, ret.
  destruct (has_serializer (typeof v)) eqn:Hs.
  - cbn [pretty set_pretty nativeJSON].
    destruct (negb p && nativeJSON this).
    + destruct (JSON_stringify v) as [r|e] eqn:Hj;
        eexists; eexists; (split; [reflexivity|]);
        (split; [discriminate|]); intros _; reflexivity.
    + destruct (serialize write v (set_pretty p this)) as [[s|e] this1];
        eexists; eexists; (split; [reflexivity|]);
        (split; [discriminate|]); intros _; reflexivity.
  - eexists; eexists. split; [reflexivity|].
    split; [reflexivity | discriminate].
Qed.

(** write ends normally. *)
Lemma write_normal (v : value) (p : bool) (this : JSONFormat) :
  exists json, fst (write v p this) = Normal json.
Proof.
  rewrite write_unfold.
  unfold write_with, bind, assign, field, try_catch, host, ret.
  destruct (has_serializer (typeof v)); [|cbn; eauto].
  destruct (negb _ && _).
  - destruct (JSON_stringify v); cbn; eauto.
  - destruct (serialize write v _) as [[s|e] this1]; cbn; eauto.
Qed.

(** Where a call of write leaves the instance *)
Lemma write_state (v : value) (p : bool) (this : JSONFormat) :
  snd (write v p this) =
  if has_serializer (typeof v) && negb (negb p && nativeJSON this)
  then snd (serialize write v (set_pretty p this))
  else set_pretty p this.
Proof.
  rewrite write_unfold.
  unfold write_with, bind, assign, field, try_catch, host, ret.
  destruct (has_serializer (typeof v)); [|reflexivity].
  cbn [pretty set_pretty nativeJSON andb].
  destruct (negb p && nativeJSON this); cbn [negb].
  - now destruct (JSON_stringify v).
  - now destruct (serialize write v (set_pretty p this)) as [[s|e] this1].
Qed.

Lemma set_pretty_same (this : JSONFormat) :
  set_pretty (pretty this) this = this.
Proof. now destruct this. Qed.

Lemma write_set_pretty (v : value) (this : JSONFormat) :
  snd (write v (pretty this) this) =
  if has_serializer (typeof v)
     && negb (negb (pretty this) && nativeJSON this)
  then snd (serialize write v this)
  else this.
Proof. now rewrite write_state, set_pretty_same. Qed.

(** Writing a key gives its quoted form and leaves the instance as it is. *)
Lemma write_string_key (k : string) (this : JSONFormat) :
  write_string k (pretty this) this =
  (Normal (Some (serialize_string k)), this).
Proof.
  unfold write_string, write_with, bind, assign, field, try_catch, host, ret.
  cbn. rewrite set_pretty_same.
  destruct (negb (pretty this) && nativeJSON this); cbn;
    [now rewrite <- QuoteJSONString_serialize_string | reflexivity].
Qed.

Lemma write_custom (v : value) (this : JSONFormat) :
  pretty this = false -> nativeJSON this = false ->
  has_serializer (typeof v) = true ->
  write v false this =
  match serialize write v this with
  | (Normal s, this1) => (Normal (Some s), this1)
  | (Throw e, this1) => (Normal None, this1)
  end.
Proof.
  intros Hp Hn Hs. rewrite write_unfold.
  unfold write_with, bind, assign, field, try_catch, host, ret.
  rewrite Hs. cbn [pretty set_pretty nativeJSON negb andb].
  rewrite Hn. cbn [andb]. rewrite <- Hp at 1. rewrite set_pretty_same.
  now destruct (serialize write v this) as [[s|e] this1].
Qed.

(* ================================================================= *)
(** ** The loops, one turn at a time *)

Lemma array_loop_step (x : value) (l : list value) (i : Z)
    (pieces : list string) (this : JSONFormat) :
  array_loop write (x :: l) i pieces this =
  match write x (pretty this) this with
  | (Normal json, this1) =>
      array_loop write l (i + 1) (array_pieces i pieces json this1) this1
  | (Throw e, this1) => (Throw e, this1)
  end.
Proof.
  cbn [array_loop]. unfold bind at 1 2. unfold field at 1.
  destruct (write x (pretty this) this) as [[[json|]|e] this1]; reflexivity.
Qed.

(** The loop of serialize.array ends normally. *)
Lemma array_loop_normal (l : list value) (i : Z) (pieces : list string)
    (this : JSONFormat) :
  exists pieces', fst (array_loop write l i pieces this) = Normal pieces'.
Proof.
  revert i pieces this.
  induction l as [|x l IH]; intros i pieces this.
  - cbn. eauto.
  - rewrite array_loop_step.
    destruct (write_normal x (pretty this) this) as [json E].
    destruct (write x (pretty this) this) as [[json'|e] this1];
      [apply IH | discriminate].
Qed.

(** One turn of the loop of serialize.object *)
Lemma object_loop_step (object : list (property value)) (k : string)
    (o : bool) (g : getter value) (ps : list (property value))
    (pieces : list string) (addComma : bool) (this : JSONFormat) :
  object_loop write object (Property k o g :: ps) pieces addComma this =
  match hasOwnProperty object o with
  | Throw e => (Throw e, this)
  | Normal false => object_loop write object ps pieces addComma this
  | Normal true =>
      match g with
      | Throws => (Throw GetterError, this)
      | Returns x =>
          match write x (pretty this) this with
          | (Normal valueJSON, this1) =>
              let next :=
                object_pieces pieces addComma (serialize_string k)
                  valueJSON this1 in
              object_loop write object ps (fst next) (snd next) this1
          | (Throw e, this1) => (Throw e, this1)
          end
      end
  end.
Proof.
  cbn [object_loop]. unfold bind at 1. unfold host at 1.
  destruct (hasOwnProperty object o) as [[|]|e]; try reflexivity.
  unfold bind at 1 2. unfold field at 1. rewrite write_string_key.
  destruct g as [x|]; [|reflexivity].
  unfold bind at 1 2. unfold field at 1.
  destruct (write x (pretty this) this) as [[[json|]|e] this1]; reflexivity.
Qed.

(** A turn of the loop at a property that the loop reads and that returns,
    when [hasOwnProperty] is the method of [Object.prototype] *)
Lemma hasOwnProperty_intact_own (object : list (property value)) (o : bool) :
  hasOwnProperty_intact object = true -> hasOwnProperty object o = Normal o.
Proof.
  unfold hasOwnProperty_intact, hasOwnProperty, read_property.
  now destruct (lookup "hasOwnProperty" object).
Qed.

Lemma serialize_array_run (array : list value) (this : JSONFormat) :
  serialize_array write array this =
  match array_loop write array 0 ["["] (set_level (level this + 1) this) with
  | (Normal pieces, this1) =>
      let this2 := set_level (level this1 - 1) this1 in
      (Normal (join (pieces ++ [newline_of this2; indent_of this2; "]"])),
       this2)
  | (Throw e, this1) => (Throw e, this1)
  end.
Proof.
  unfold serialize_array, bind, field, assign.
  destruct (array_loop write array 0 ["["] (set_level (level this + 1) this))
    as [[pieces|e] this1]; reflexivity.
Qed.

Lemma serialize_object_run (object : list (property value))
    (this : JSONFormat) :
  serialize_object write object this =
  match read_property "constructor" object with
  | Throw e => (Throw e, this)
  | Normal _ =>
      match object_loop write object object ["{"] false
              (set_level (level this + 1) this) with
      | (Normal pieces, this1) =>
          let this2 := set_level (level this1 - 1) this1 in
          (Normal (join (pieces ++ [newline_of this2; indent_of this2; "}"])),
           this2)
      | (Throw e, this1) => (Throw e, this1)
      end
  end.
Proof.
  unfold serialize_object, bind, host, field, assign.
  destruct (read_property "constructor" object) as [c|e]; [|reflexivity].
  destruct (object_loop write object object ["{"] false
              (set_level (level this + 1) this))
    as [[pieces|e] this1]; reflexivity.
Qed.

Lemma loops_finish_object (ps : list (property value)) :
  loops_finish (JObject ps) =
  match read_property "constructor" ps with
  | Throw _ => true
  | Normal _ => forallb (entry_finishes ps) ps
  end.
Proof. reflexivity. Qed.

(* ================================================================= *)
(** ** The level *)

Lemma level_kept_above_refl (this : JSONFormat) : level_kept_above this this.
Proof. exists []. repeat split; [constructor | lia]. Qed.

Lemma level_kept_above_trans (a b c : JSONFormat) :
  level_kept_above a b -> level_kept_above b c -> level_kept_above a c.
Proof.
  intros (l1 & H1 & F1 & L1) (l2 & H2 & F2 & L2).
  exists (l2 ++ l1)%list. repeat split.
  - now rewrite H2, H1, app_assoc.
  - apply Forall_app. split; [|exact F1].
    eapply Forall_impl; [|exact F2]. simpl. intros; lia.
  - lia.
Qed.

Lemma level_kept_above_set_level (this : JSONFormat) (l : Z) :
  level this <= l -> level_kept_above this (set_level l this).
Proof.
  intros H. exists [l]. repeat split; simpl; [repeat constructor; lia | lia].
Qed.

Lemma level_kept_above_assign (a b : JSONFormat) (l : Z) :
  level_kept_above a b -> level a <= l -> level_kept_above a (set_level l b).
Proof.
  intros (l1 & H1 & F1 & L1) Hl.
  exists (l :: l1). repeat split; simpl.
  - now rewrite H1.
  - now constructor.
  - exact Hl.
Qed.

Lemma level_kept_above_set_pretty (this : JSONFormat) (p : bool) :
  level_kept_above this (set_pretty p this).
Proof. exists []. repeat split; simpl; [constructor | lia]. Qed.

(** Entering a body one level deeper, running its loop and leaving it *)
Lemma body_level (this this1 : JSONFormat) :
  level_kept_above (set_level (level this + 1) this) this1 ->
  level_kept_above this this1 /\
  level_kept_above this (set_level (level this1 - 1) this1).
Proof.
  intros K.
  assert (K0 : level_kept_above this this1).
  { eapply level_kept_above_trans; [|exact K].
    apply level_kept_above_set_level. lia. }
  split; [exact K0|].
  apply level_kept_above_assign; [exact K0|].
  destruct K as (_ & _ & _ & L). cbn in L. lia.
Qed.

Lemma array_loop_level (l : list value) :
  Forall level_discipline l ->
  forall i pieces this,
    level_kept_above this (snd (array_loop write l i pieces this)) /\
    (forallb loops_finish l = true ->
     level (snd (array_loop write l i pieces this)) = level this).
Proof.
  induction 1 as [|x l Hx _ IH]; intros i pieces this.
  - split; [apply level_kept_above_refl | reflexivity].
  - rewrite array_loop_step. cbn [forallb].
    destruct (Hx (pretty this) this) as [Kx Bx].
    destruct (write x (pretty this) this) as [[json|e] this1]; cbn [snd] in *.
    + destruct (IH (i + 1) (array_pieces i pieces json this1) this1)
        as [Kl Bl].
      split.
      * eapply level_kept_above_trans; eassumption.
      * intros H. apply andb_true_iff in H as [H1 H2].
        rewrite (Bl H2). auto.
    + split; [exact Kx | intros H; apply andb_true_iff in H as [H1 _]; auto].
Qed.

Lemma object_loop_level (object ps : list (property value)) :
  Forall (fun p => forall v, get p = Returns v -> level_discipline v) ps ->
  forall pieces addComma this,
    level_kept_above this
      (snd (object_loop write object ps pieces addComma this)) /\
    (forallb (entry_finishes object) ps = true ->
     level (snd (object_loop write object ps pieces addComma this))
     = level this /\
     exists pieces',
       fst (object_loop write object ps pieces addComma this)
       = Normal pieces').
Proof.
  induction 1 as [|[k o g] ps Hx _ IH]; intros pieces addComma this.
  - split; [apply level_kept_above_refl | cbn; eauto].
  - rewrite object_loop_step. cbn [forallb entry_finishes].
    destruct (hasOwnProperty object o) as [[|]|e].
    + destruct g as [x|].
      * destruct (Hx x eq_refl (pretty this) this) as [Kx Bx].
        destruct (write_normal x (pretty this) this) as [json' E].
        destruct (write x (pretty this) this) as [[json|e] this1];
          [|discriminate].
        cbn [snd] in *; cbv zeta.
        match goal with
        | |- context [object_loop write object ps ?a ?b this1] =>
            destruct (IH a b this1) as [Kl Bl]
        end.
        split.
        -- eapply level_kept_above_trans; eassumption.
        -- intros H. apply andb_true_iff in H as [H1 H2].
           destruct (Bl H2) as [-> N]. auto.
      * cbn [snd]. split; [apply level_kept_above_refl | discriminate].
    + apply IH.
    + cbn [snd]. split; [apply level_kept_above_refl | discriminate].
Qed.

Lemma level_discipline_holds (v : value) : level_discipline v.
Proof.
  induction v using value_ind; intros p this; rewrite write_state;
    cbn [typeof has_serializer existsb String.eqb Ascii.eqb Bool.eqb orb andb];
    try (split; [apply level_kept_above_set_pretty | reflexivity]);
    (destruct (negb (negb p && nativeJSON this)); cbn [andb];
     [| split; [apply level_kept_above_set_pretty | reflexivity]]);
    cbn [serialize ret snd];
    try (split; [apply level_kept_above_set_pretty | reflexivity]).
  - (* an array *)
    rewrite serialize_array_run.
    change (level this) with (level (set_pretty p this)).
    generalize (level_kept_above_set_pretty this p).
    generalize (set_pretty p this) as this0. intros this0 K0.
    destruct (array_loop_level l H 0 ["["] (set_level (level this0 + 1) this0))
      as [Kl Bl].
    apply body_level in Kl as [K1 K2].
    destruct (array_loop_normal l 0 ["["] (set_level (level this0 + 1) this0))
      as [pieces' E].
    destruct (array_loop write l 0 ["["] (set_level (level this0 + 1) this0))
      as [[pieces|e] this1]; [|discriminate].
    cbn [snd loops_finish] in *. split.
    + eapply level_kept_above_trans; eassumption.
    + intros Hg. cbn. rewrite (Bl Hg). cbn. lia.
  - (* a plain object *)
    rewrite serialize_object_run, loops_finish_object.
    change (level this) with (level (set_pretty p this)).
    generalize (level_kept_above_set_pretty this p).
    generalize (set_pretty p this) as this0. intros this0 K0.
    destruct (read_property "constructor" ps) as [c|e];
      [|split; [exact K0 | reflexivity]].
    destruct (object_loop_level ps ps H ["{"] false
                (set_level (level this0 + 1) this0)) as [Kl Bl].
    apply body_level in Kl as [K1 K2].
    destruct (object_loop write ps ps ["{"] false
                (set_level (level this0 + 1) this0))
      as [[pieces|e] this1]; cbn [snd fst] in *.
    + split.
      * eapply level_kept_above_trans; eassumption.
      * intros Hg. cbn. destruct (Bl Hg) as [-> _]. cbn. lia.
    + split.
      * eapply level_kept_above_trans; eassumption.
      * intros Hg. destruct (Bl Hg) as [_ [pieces' N]]. discriminate.
Qed.

(** C3.  A property whose getter throws leaves the level raised:
    write({get x() { throw 0 }}, true) on a fresh instance returns [null]
    and leaves the level at 1, where it was 0.  So it is without native
    JSON when pretty is disabled; inside an array, whose own text is
    written, with its closing bracket already indented; and for
    [{hasOwnProperty: 1, a: 2}], on which the call of [hasOwnProperty]
    throws.  A later write with pretty enabled is then
    indented one level too deep.  serialize.object adds 1 to the level
    before its loop and takes 1 off after it, and a throw in between skips
    the second; the fast path, which does not touch the level, leaves it
    at 0 on the same value. *)
Theorem level_left_raised_by_throw :
  level (new_JSONFormat true) = 0 /\
  write object_throwing_getter true (new_JSONFormat true) =
    (Normal None, set_level 1 (set_pretty true (new_JSONFormat true))) /\
  level (snd (write object_throwing_getter true (new_JSONFormat true))) = 1 /\
  level (snd (write object_throwing_getter false (new_JSONFormat false)))
  = 1 /\
  fst (write (JArray [object_throwing_getter]) true (new_JSONFormat true)) =
    Normal (Some ("[" ++ LF ++ "    ]")) /\
  level (snd (write (JArray [object_throwing_getter]) true
                (new_JSONFormat true))) = 1 /\
  level (snd (write object_hasOwnProperty_1_a2 true (new_JSONFormat true)))
  = 1 /\
  fst (write (JArray [JNull]) true (new_JSONFormat true)) =
    Normal (Some ("[" ++ LF ++ "    null" ++ LF ++ "]")) /\
  fst (write (JArray [JNull]) true
         (snd (write object_throwing_getter true (new_JSONFormat true)))) =
    Normal (Some ("[" ++ LF ++ "        null" ++ LF ++ "    ]")) /\
  write object_throwing_getter false (new_JSONFormat true) =
    (Normal None, new_JSONFormat true).
Proof. repeat split. Qed.

(* ================================================================= *)
(** ** serialize.object *)

Lemma object_pairs_step (k : string) (x : value)
    (rest : list (string * value)) (this : JSONFormat) :
  object_pairs ((k, x) :: rest) this =
  match write x (pretty this) this with
  | (Normal (Some valueJSON), this1) =>
      match object_pairs rest this1 with
      | (Normal pairs, this2) =>
          (Normal ((newline_of this1 ++ indent_of this1 ++ serialize_string k
                    ++ ":" ++ space_of this1 ++ valueJSON) :: pairs), this2)
      | (Throw e, this2) => (Throw e, this2)
      end
  | (Normal None, this1) => object_pairs rest this1
  | (Throw e, this1) => (Throw e, this1)
  end.
Proof.
  cbn [object_pairs]. unfold bind at 1 2. unfold field at 1.
  rewrite write_JString, write_string_key.
  unfold bind at 1 2. unfold field at 1.
  destruct (write x (pretty this) this) as [[[json|]|e] this1];
    reflexivity.
Qed.

(** The loop with its pieces and its flag builds the text of the pairs with
    a comma between neighbours. *)
Lemma object_loop_pairs (object ps : list (property value)) :
  hasOwnProperty_intact object = true ->
  own_getters_return ps = true ->
  forall pieces addComma this,
    match object_loop write object ps pieces addComma this,
          object_pairs (own_enumerable ps) this with
    | (Normal pieces', this1), (Normal pairs, this2) =>
        this1 = this2 /\
        join pieces' = join pieces ++ pairs_text addComma pairs
    | (Throw e1, this1), (Throw e2, this2) => e1 = e2 /\ this1 = this2
    | _, _ => False
    end.
Proof.
  intros Hh. induction ps as [|[k o g] ps IH]; intros Hg pieces addComma this.
  - cbn. split; [reflexivity | now rewrite append_empty_r].
  - rewrite object_loop_step, (hasOwnProperty_intact_own object o Hh).
    cbn [own_getters_return forallb] in Hg.
    destruct o; [|destruct g; now apply IH].
    destruct g as [x|]; [|discriminate Hg].
    change (own_enumerable (Property k true (Returns x) :: ps))
      with ((k, x) :: own_enumerable ps).
    rewrite object_pairs_step.
    destruct (write x (pretty this) this) as [[[json|]|e] this1];
      cbv zeta; cbn [object_pieces fst snd];
      [| now apply IH | now split].
    match goal with
    | |- context [object_loop write object ps ?a true this1] =>
        specialize (IH Hg a true this1);
        destruct (object_loop write object ps a true this1)
          as [[pieces'|e1] this2]
    end;
      destruct (object_pairs (own_enumerable ps) this1)
        as [[pairs|e2] this3]; try exact IH.
    destruct IH as [-> IH]. split; [reflexivity|].
    rewrite IH. unfold pairs_text.
    destruct addComma, pairs as [|pair pairs];
      rewrite ?join_app, ?join_cons; cbn [String.concat join];
      rewrite ?append_assoc; cbn [append]; rewrite ?append_empty_r;
      rewrite ?append_assoc; reflexivity.
Qed.

Lemma object_text_run (object : list (property value)) (this : JSONFormat) :
  object_text object this =
  match object_pairs (own_enumerable object)
          (set_level (level this + 1) this) with
  | (Normal pairs, this1) =>
      let this2 := set_level (level this1 - 1) this1 in
      (Normal ("{" ++ String.concat "," pairs
               ++ newline_of this2 ++ indent_of this2 ++ "}"), this2)
  | (Throw e, this1) => (Throw e, this1)
  end.
Proof.
  unfold object_text, bind, field, assign.
  destruct (object_pairs (own_enumerable object)
              (set_level (level this + 1) this))
    as [[pairs|e] this1]; reflexivity.
Qed.

(** C5.  serialize.object does not write every plain object as the pairs
    of its own properties: it asks [object.hasOwnProperty(key)] of the
    object itself, so that for [{hasOwnProperty: 1, a: 2}] the call throws
    and write returns [null], with pretty enabled and without native JSON,
    where the fast path gives the text of both pairs.  For an object whose
    [hasOwnProperty] is the method of [Object.prototype] and whose
    [constructor] and own properties can be read, serialize.object gives
    the text of the emitted pairs, with a comma between neighbours and none
    elsewhere: the pairs of the own properties, in order, whose key and
    value are both written to a string; a pair one of which is written to
    [null] is left out and the loop goes on; inherited properties add
    nothing.  In particular [{a: 1, b: function () {}}] is written as the
    object with the one pair of [a], with or without native JSON. *)
Theorem serialize_object_pairs (object : list (property value))
    (this : JSONFormat) :
  (fst (write object_hasOwnProperty_1_a2 true (new_JSONFormat true)) =
     Normal None /\
   fst (write object_hasOwnProperty_1_a2 false (new_JSONFormat false)) =
     Normal None /\
   fst (write object_hasOwnProperty_1_a2 false (new_JSONFormat true)) =
     Normal (Some ("{" ++ quoted "hasOwnProperty" ++ ":1," ++
                   quoted "a" ++ ":2}"))) /\
  (hasOwnProperty_intact object = true ->
   constructor_returns object = true ->
   own_getters_return object = true ->
   serialize_object write object this = object_text object this) /\
  (forall native,
     fst (write object_a1_bfunction false (new_JSONFormat native)) =
     Normal (Some ("{" ++ quoted "a" ++ ":1}"))).
Proof.
  split; [repeat split | split].
  - intros Hh Hc Hg. rewrite serialize_object_run, object_text_run.
    unfold constructor_returns in Hc.
    destruct (read_property "constructor" object) as [c|e];
      [|discriminate Hc].
    pose proof (object_loop_pairs object object Hh Hg ["{"] false
                  (set_level (level this + 1) this)) as H.
    destruct (object_loop write object object ["{"] false
                (set_level (level this + 1) this)) as [[pieces|e1] this1];
      destruct (object_pairs (own_enumerable object)
                  (set_level (level this + 1) this))
        as [[pairs|e2] this2]; try contradiction.
    + destruct H as [-> H]. cbv zeta. f_equal. f_equal.
      rewrite join_app, H, !join_cons. unfold pairs_text.
      destruct pairs; cbn [join String.concat append];
        rewrite ?append_assoc, ?append_empty_r; reflexivity.
    + destruct H as [-> ->]. reflexivity.
  - intros []; reflexivity.
Qed.

(* ================================================================= *)
(** ** serialize.array *)

(** C2.  When the first element of an array is skipped and the second is
    not, serialize.array puts a comma before the second: the comma follows
    the index, not what has been emitted.  So it is for every array whose
    first element is written to [null] and whose second is written to a
    string: the loop goes on with the comma right after the bracket. *)
Theorem array_leading_comma (skipped x : value) (rest : list value)
    (this this0 this1 : JSONFormat) (json : string) :
  fst (write array_function_1 false (new_JSONFormat false)) =
    Normal (Some "[,1]") /\
  fst (write array_function_1 true (new_JSONFormat true)) =
    Normal (Some ("[," ++ LF ++ "    1" ++ LF ++ "]")) /\
  fst (write (JArray [JNumber (Finite 1); JFunction; JNumber (Finite 3)])
         false (new_JSONFormat false)) = Normal (Some "[1,3]") /\
  (write skipped (pretty this) this = (Normal None, this0) ->
   write x (pretty this0) this0 = (Normal (Some json), this1) ->
   array_loop write (skipped :: x :: rest) 0 ["["] this =
   array_loop write rest 2
     ["["; ","; newline_of this1; indent_of this1; json] this1).
Proof.
  repeat split.
  intros H0 H1. now rewrite array_loop_step, H0, array_loop_step, H1.
Qed.

(* ================================================================= *)
(** ** The settings are kept *)

Lemma same_settings_refl (this : JSONFormat) : same_settings this this.
Proof. repeat split. Qed.

Lemma same_settings_trans (a b c : JSONFormat) :
  same_settings a b -> same_settings b c -> same_settings a c.
Proof.
  unfold same_settings. intros H1 H2.
  repeat split; etransitivity; (apply H2 || apply H1).
Qed.

Lemma same_settings_set_level (this : JSONFormat) (l : Z) :
  same_settings this (set_level l this).
Proof. repeat split. Qed.

Lemma array_loop_settings (l : list value) :
  Forall keeps_settings l ->
  forall i pieces this,
    same_settings this (snd (array_loop write l i pieces this)).
Proof.
  induction 1 as [|x l Hx _ IH]; intros i pieces this.
  - apply same_settings_refl.
  - rewrite array_loop_step. specialize (Hx this).
    destruct (write x (pretty this) this) as [[json|e] this1];
      cbn [snd] in *; [|exact Hx].
    eapply same_settings_trans; [exact Hx | apply IH].
Qed.

Lemma object_loop_settings (object ps : list (property value)) :
  Forall (fun p => forall v, get p = Returns v -> keeps_settings v) ps ->
  forall pieces addComma this,
    same_settings this
      (snd (object_loop write object ps pieces addComma this)).
Proof.
  induction 1 as [|[k o g] ps Hx _ IH]; intros pieces addComma this.
  - apply same_settings_refl.
  - rewrite object_loop_step.
    destruct (hasOwnProperty object o) as [[|]|e];
      [| apply IH | apply same_settings_refl].
    destruct g as [x|]; [|apply same_settings_refl].
    specialize (Hx x eq_refl this).
    destruct (write x (pretty this) this) as [[json|e] this1];
      cbn [snd] in *; [|exact Hx].
    eapply same_settings_trans; [exact Hx | apply IH].
Qed.

Lemma write_keeps_settings (v : value) : keeps_settings v.
Proof.
  induction v using value_ind; intros this; rewrite write_set_pretty;
    cbn [typeof has_serializer existsb String.eqb Ascii.eqb Bool.eqb orb andb];
    try apply same_settings_refl;
    (destruct (negb (negb (pretty this) && nativeJSON this)); cbn [andb];
     [| apply same_settings_refl]);
    cbn [serialize ret snd]; try apply same_settings_refl.
  - rewrite serialize_array_run.
    pose proof (array_loop_settings l H 0 ["["]
                  (set_level (level this + 1) this)) as K.
    destruct (array_loop write l 0 ["["] (set_level (level this + 1) this))
      as [[pieces|e] this1]; cbn [snd] in *.
    + eapply same_settings_trans; [apply same_settings_set_level|].
      eapply same_settings_trans; [exact K | apply same_settings_set_level].
    + eapply same_settings_trans; [apply same_settings_set_level | exact K].
  - rewrite serialize_object_run.
    destruct (read_property "constructor" ps) as [c|e];
      [|apply same_settings_refl].
    pose proof (object_loop_settings ps ps H ["{"] false
                  (set_level (level this + 1) this)) as K.
    destruct (object_loop write ps ps ["{"] false
                (set_level (level this + 1) this))
      as [[pieces|e] this1]; cbn [snd] in *.
    + eapply same_settings_trans; [apply same_settings_set_level|].
      eapply same_settings_trans; [exact K | apply same_settings_set_level].
    + eapply same_settings_trans; [apply same_settings_set_level | exact K].
Qed.

(* ================================================================= *)
(** ** The fast path and the custom serializers *)

Lemma stringify_array (l : list value) :
  SerializeJSONProperty (JArray l) =
  match SerializeJSONArray l with
  | Throw e => Throw e
  | Normal partial => Normal (Some ("[" ++ String.concat "," partial ++ "]"))
  end.
Proof. reflexivity. Qed.

Lemma stringify_object (ps : list (property value)) :
  SerializeJSONProperty (JObject ps) =
  match read_property "toJSON" ps with
  | Throw e => Throw e
  | Normal toJSON =>
      if callable toJSON then Normal None
      else match SerializeJSONObject ps with
           | Throw e => Throw e
           | Normal partial =>
               Normal (Some ("{" ++ String.concat "," partial ++ "}"))
           end
  end.
Proof. reflexivity. Qed.

(** An object without a property of a name has nothing to read there but
    what [Object.prototype] gives. *)
Lemma lookup_none (name : string) (ps : list (property value)) :
  existsb (fun p => String.eqb (key p) name) ps = false ->
  lookup name ps = None.
Proof.
  unfold lookup. induction ps as [|p ps IH]; [reflexivity|].
  cbn [existsb find]. intros H. apply orb_false_iff in H as [-> H].
  rewrite andb_false_r. now apply IH.
Qed.

Lemma ordinary_lookup (name : string) (ps : list (property value)) :
  special name = true ->
  existsb (fun p => special (key p)) ps = false ->
  lookup name ps = None.
Proof.
  intros Hn H. apply lookup_none.
  induction ps as [|p ps IH]; [reflexivity|].
  cbn [existsb] in *. apply orb_false_iff in H as [Hp H].
  rewrite (IH H), orb_false_r.
  destruct (String.eqb (key p) name) eqn:E; [|reflexivity].
  apply String.eqb_eq in E. congruence.
Qed.

(** What an ordinary object answers to the three reads by name *)
Lemma ordinary_reads (ps : list (property value)) :
  existsb (fun p => special (key p)) ps = false ->
  read_property "toJSON" ps = Normal None /\
  read_property "constructor" ps = Normal None /\
  hasOwnProperty_intact ps = true.
Proof.
  intros H. unfold read_property, hasOwnProperty_intact.
  now rewrite (ordinary_lookup "toJSON" ps eq_refl H),
    (ordinary_lookup "constructor" ps eq_refl H),
    (ordinary_lookup "hasOwnProperty" ps eq_refl H).
Qed.

Lemma plain_json_has_serializer (v : value) :
  plain_json v = true -> has_serializer (typeof v) = true.
Proof. destruct v; intros H; try reflexivity; discriminate H. Qed.

(** On an ordinary value of JSON the host's stringify gives a string. *)
Lemma plain_json_stringify (v : value) :
  plain_json v = true -> ordinary v = true ->
  exists s, JSON_stringify v = Normal (Some s).
Proof.
  unfold JSON_stringify.
  induction v using value_ind; intros Hv Ho; try discriminate Hv;
    try (cbn; eauto; fail).
  - rewrite stringify_array. cbn [plain_json ordinary] in Hv, Ho.
    assert (Hl : exists partial, SerializeJSONArray l = Normal partial).
    { induction H as [|x l Hx _ IH]; [cbn; eauto|].
      cbn [forallb] in Hv, Ho.
      apply andb_true_iff in Hv as [Hpx Hpl].
      apply andb_true_iff in Ho as [Hox Hol].
      destruct (Hx Hpx Hox) as [s Es]. destruct (IH Hpl Hol) as [partial El].
      cbn [SerializeJSONArray]. rewrite Es, El. eauto. }
    destruct Hl as [partial ->]. eauto.
  - rewrite stringify_object. cbn [plain_json ordinary] in Hv, Ho.
    apply andb_true_iff in Ho as [Hs Ho]. apply negb_true_iff in Hs.
    destruct (ordinary_reads ps Hs) as (-> & _ & _). cbn [callable].
    assert (Hl : exists partial, SerializeJSONObject ps = Normal partial).
    { clear Hs. induction H as [|[k o g] ps Hx _ IH]; [cbn; eauto|].
      cbn [forallb] in Hv, Ho.
      apply andb_true_iff in Hv as [Hpx Hpl].
      apply andb_true_iff in Ho as [Hox Hol].
      destruct (IH Hpl Hol) as [partial El].
      destruct o; [|cbn [SerializeJSONObject]; eauto].
      destruct g as [x|]; [|discriminate Hpx].
      destruct (Hx x eq_refl Hpx Hox) as [s Es].
      cbn [SerializeJSONObject]. rewrite Es, El. eauto. }
    destruct Hl as [partial ->]. eauto.
Qed.

(** With pretty disabled the whitespace helpers give the empty string. *)
Lemma no_whitespace (this : JSONFormat) :
  pretty this = false ->
  newline_of this = EmptyString /\ indent_of this = EmptyString /\
  space_of this = EmptyString.
Proof.
  unfold newline_of, indent_of, space_of. intros ->. repeat split.
Qed.

(** The text the pieces pushed for one more string add *)
Lemma pairs_text_cons (addComma : bool) (s : string) (partial : list string) :
  pairs_text addComma (s :: partial) =
  (if addComma then "," else EmptyString) ++ s ++ pairs_text true partial.
Proof.
  unfold pairs_text. destruct partial as [|s' partial].
  - cbn. now rewrite append_empty_r.
  - reflexivity.
Qed.

Lemma array_loop_agrees (l : list value) :
  Forall paths_agree l ->
  forallb plain_json l = true ->
  forallb ordinary l = true ->
  forall i pieces this,
    0 <= i ->
    pretty this = false ->
    exists partial pieces' this',
      SerializeJSONArray l = Normal partial /\
      array_loop write l i pieces this = (Normal pieces', this') /\
      join pieces' = join pieces ++ pairs_text (0 <? i) partial.
Proof.
  induction 1 as [|x l Hx _ IH]; intros Hl Ho i pieces this Hi Hp.
  - exists [], pieces, this. cbn. now rewrite append_empty_r.
  - cbn [forallb] in Hl, Ho.
    apply andb_true_iff in Hl as [Hpx Hpl].
    apply andb_true_iff in Ho as [Hox Hol].
    rewrite array_loop_step, Hp.
    specialize (Hx Hpx Hox this Hp).
    destruct (plain_json_stringify x Hpx Hox) as [s Es]. rewrite Es in Hx.
    pose proof (write_keeps_settings x this) as K. rewrite Hp in K.
    destruct (write x false this) as [[json|e] this1]; cbn [fst snd] in *;
      [|discriminate Hx].
    injection Hx as ->.
    assert (Hp1 : pretty this1 = false) by (destruct K as [-> _]; exact Hp).
    destruct (IH Hpl Hol (i + 1) (array_pieces i pieces (Some s) this1) this1
                ltac:(lia) Hp1) as (partial & pieces' & this' & El & Ea & Ej).
    exists (s :: partial), pieces', this'. split; [|split; [exact Ea|]].
    + unfold JSON_stringify in Es. cbn [SerializeJSONArray].
      now rewrite Es, El.
    + rewrite Ej, pairs_text_cons. unfold array_pieces.
      destruct (no_whitespace this1 Hp1) as (-> & -> & _).
      replace (0 <? i + 1) with true by (symmetry; apply Z.ltb_lt; lia).
      destruct (0 <? i); rewrite !join_app, ?join_cons;
        cbn [join String.concat];
        rewrite ?append_assoc; cbn [append]; rewrite ?append_assoc;
        reflexivity.
Qed.

Lemma object_loop_agrees (object ps : list (property value)) :
  hasOwnProperty_intact object = true ->
  Forall (fun p => forall v, get p = Returns v -> paths_agree v) ps ->
  forallb (fun p => match p with
                    | Property _ true (Returns x) => plain_json x
                    | Property _ true Throws => false
                    | Property _ false _ => true
                    end) ps = true ->
  forallb (fun p => match p with
                    | Property _ _ (Returns x) => ordinary x
                    | Property _ _ Throws => true
                    end) ps = true ->
  forall pieces addComma this,
    pretty this = false ->
    exists partial pieces' this',
      SerializeJSONObject ps = Normal partial /\
      object_loop write object ps pieces addComma this
      = (Normal pieces', this') /\
      join pieces' = join pieces ++ pairs_text addComma partial.
Proof.
  intros Hh.
  induction 1 as [|[k o g] ps Hx _ IH]; intros Hl Ho pieces addComma this Hp.
  - exists [], pieces, this. cbn. now rewrite append_empty_r.
  - cbn [forallb] in Hl, Ho.
    apply andb_true_iff in Hl as [Hpx Hpl].
    apply andb_true_iff in Ho as [Hox Hol].
    rewrite object_loop_step, (hasOwnProperty_intact_own object o Hh).
    destruct o; [|destruct g; apply (IH Hpl Hol _ _ _ Hp)].
    destruct g as [x|]; [|discriminate Hpx].
    rewrite Hp.
    specialize (Hx x eq_refl Hpx Hox this Hp).
    destruct (plain_json_stringify x Hpx Hox) as [s Es]. rewrite Es in Hx.
    pose proof (write_keeps_settings x this) as K. rewrite Hp in K.
    destruct (write x false this) as [[json|e] this1]; cbn [fst snd] in *;
      [|discriminate Hx].
    injection Hx as ->.
    assert (Hp1 : pretty this1 = false) by (destruct K as [-> _]; exact Hp).
    cbv zeta. cbn [object_pieces fst snd].
    match goal with
    | |- context [object_loop write object ps ?a true this1] =>
        destruct (IH Hpl Hol a true this1 Hp1)
          as (partial & pieces' & this' & El & Ea & Ej)
    end.
    exists ((QuoteJSONString k ++ ":" ++ s) :: partial), pieces', this'.
    split; [|split; [exact Ea|]].
    + unfold JSON_stringify in Es. cbn [SerializeJSONObject].
      now rewrite Es, El.
    + rewrite Ej, pairs_text_cons, QuoteJSONString_serialize_string.
      destruct (no_whitespace this1 Hp1) as (-> & -> & ->).
      destruct addComma; rewrite !join_app, ?join_cons;
        cbn [join String.concat];
        rewrite ?append_assoc; cbn [append]; rewrite ?append_assoc;
        reflexivity.
Qed.

Lemma write_paths_agree (v : value) : paths_agree v.
Proof.
  induction v using value_ind; intros Hv Ho this Hp; try discriminate Hv;
    pose proof (plain_json_has_serializer _ Hv) as Hs;
    (destruct (nativeJSON this) eqn:Hn;
     [ (* the fast path *)
       destruct (plain_json_stringify _ Hv Ho) as [text Es];
       rewrite write_unfold;
       unfold write_with, bind, assign, field, try_catch, host, ret;
       rewrite Hs; cbn [pretty set_pretty nativeJSON negb andb];
       rewrite Hn, Es; reflexivity
     | rewrite (write_custom _ this Hp Hn Hs); cbn [serialize ret] ]);
    try reflexivity.
  - (* a string *)
    unfold JSON_stringify. cbn [SerializeJSONProperty fst].
    now rewrite QuoteJSONString_serialize_string.
  - (* an array *)
    rewrite serialize_array_run. cbn [plain_json ordinary] in Hv, Ho.
    destruct (array_loop_agrees l H Hv Ho 0 ["["]
                (set_level (level this + 1) this) ltac:(lia) Hp)
      as (partial & pieces' & this' & El & Ea & Ej).
    rewrite Ea. cbv zeta. cbn [fst].
    unfold JSON_stringify. rewrite stringify_array, El. do 2 f_equal.
    assert (Hp' : pretty (set_level (level this' - 1) this') = false).
    { pose proof (array_loop_settings l
                    (Forall_impl _ (fun x _ => write_keeps_settings x) H)
                    0 ["["] (set_level (level this + 1) this)) as K.
      rewrite Ea in K. destruct K as [K _]. cbn in *. congruence. }
    destruct (no_whitespace _ Hp') as (-> & -> & _).
    rewrite join_app, Ej. unfold pairs_text. cbn [Z.ltb Z.compare].
    destruct partial; cbn [join String.concat append];
      rewrite ?append_assoc; reflexivity.
  - (* a plain object *)
    rewrite serialize_object_run. cbn [plain_json ordinary] in Hv, Ho.
    apply andb_true_iff in Ho as [Hsp Ho]. apply negb_true_iff in Hsp.
    destruct (ordinary_reads ps Hsp) as (Ht & -> & Hh).
    destruct (object_loop_agrees ps ps Hh H Hv Ho ["{"] false
                (set_level (level this + 1) this) Hp)
      as (partial & pieces' & this' & El & Ea & Ej).
    rewrite Ea. cbv zeta. cbn [fst].
    unfold JSON_stringify. rewrite stringify_object, Ht, El. cbn [callable].
    do 2 f_equal.
    assert (Hp' : pretty (set_level (level this' - 1) this') = false).
    { pose proof (object_loop_settings ps ps
                    (Forall_impl _ (fun p _ v _ => write_keeps_settings v) H)
                    ["{"] false (set_level (level this + 1) this)) as K.
      rewrite Ea in K. destruct K as [K _]. cbn in *. congruence. }
    destruct (no_whitespace _ Hp') as (-> & -> & _).
    rewrite join_app, Ej. unfold pairs_text.
    destruct partial; cbn [join String.concat append];
      rewrite ?append_assoc; reflexivity.
Qed.

(** On the ordinary values of JSON (no Date, no value without a
    serializer, no getter that throws, no property named constructor,
    hasOwnProperty or toJSON, every finite number an integer that Number
    holds exactly) write with pretty disabled returns what the host's
    stringify returns, with or without native JSON: the fast path and the
    custom serializers agree there. *)
Theorem fast_path_agrees_on_plain_json (v : value) (this this' : JSONFormat) :
  plain_json v = true ->
  ordinary v = true ->
  fst (write v false this) = JSON_stringify v /\
  fst (write v false this) = fst (write v false this').
Proof.
  intros Hv Ho.
  assert (H : forall t, fst (write v false t) = JSON_stringify v).
  { intros t.
    replace (write v false t) with (write v false (set_pretty false t)).
    - now apply write_paths_agree.
    - rewrite !write_unfold. reflexivity. }
  split; [apply H | now rewrite !H].
Qed.

Lemma fast_path_agrees_on_plain_json_witness :
  fst (write roundtrip_value false (new_JSONFormat true)) =
  fst (write roundtrip_value false (new_JSONFormat false)).
Proof.
  exact (proj2 (fast_path_agrees_on_plain_json roundtrip_value
                  (new_JSONFormat true) (new_JSONFormat false)
                  eq_refl eq_refl)).
Defined.

(** C1.  On a Date the fast path and the custom serializers differ: the
    host writes [toISOString()], in UTC with milliseconds and a final Z,
    serialize.date the local time to the second; so does an array that
    holds the Date. *)
Theorem fast_path_differs_on_date :
  fst (write (JDate date_2024_01_05) false (new_JSONFormat true)) =
    Normal (Some (quoted "2024-01-05T09:03:07.000Z")) /\
  fst (write (JDate date_2024_01_05) false (new_JSONFormat false)) =
    Normal (Some (quoted "2024-01-05T09:03:07")) /\
  fst (write (JArray [JDate date_2024_01_05]) false (new_JSONFormat true)) =
    Normal (Some ("[" ++ quoted "2024-01-05T09:03:07.000Z" ++ "]")) /\
  fst (write (JArray [JDate date_2024_01_05]) false (new_JSONFormat false)) =
    Normal (Some ("[" ++ quoted "2024-01-05T09:03:07" ++ "]")).
Proof. repeat split. Qed.

(** C4.  With pretty disabled and native JSON, write gives for the Date of
    2024-01-05 09:03:07 local time what the host's [toISOString()] returns,
    in double quotes, whatever that is; on a host in UTC these are 26
    characters.  The 21 characters of the local time to the second, with
    the month counted from 1 and two digits for every part but the year,
    are what serialize.date gives, which write calls without native JSON
    or with pretty enabled. *)
Theorem write_date_2024_01_05 (iso : string) (this : JSONFormat) :
  (nativeJSON this = true ->
   fst (write (JDate (MkDate 2024 0 5 9 3 7 iso)) false this) =
   Normal (Some (QuoteJSONString iso))) /\
  fst (write (JDate date_2024_01_05) false (new_JSONFormat true)) =
    Normal (Some (quoted "2024-01-05T09:03:07.000Z")) /\
  length (quoted "2024-01-05T09:03:07.000Z") = 26%nat /\
  (negb (pretty this) && nativeJSON this = false ->
   fst (write (JDate (MkDate 2024 0 5 9 3 7 iso)) (pretty this) this) =
   Normal (Some (quoted "2024-01-05T09:03:07"))) /\
  length (quoted "2024-01-05T09:03:07") = 21%nat.
Proof.
  repeat split.
  - intros Hn. rewrite write_unfold.
    unfold write_with, bind, assign, field, try_catch, host, ret.
    cbn. now rewrite Hn.
  - intros Hc. rewrite write_unfold.
    unfold write_with, bind, assign, field, try_catch, host, ret.
    cbn. now rewrite Hc.
Qed.

(* ================================================================= *)
(** ** read *)

(** C7.  Whatever the host's parser does on the text and the filter, read
    ends normally; when the parser throws, or is not called because the
    instance has no native JSON, the result is [undefined], and otherwise
    it is the parser's result. *)
Theorem read_never_throws
    (JSON_parse : string -> option reviver -> completion value)
    (json : string) (filter : option reviver) (this : JSONFormat) :
  exists object this',
    read JSON_parse json filter this = (Normal object, this') /\
    (nativeJSON this = false \/ (exists e, JSON_parse json filter = Throw e) ->
     object = JUndefined) /\
    (forall v, nativeJSON this = true ->
               JSON_parse json filter = Normal v -> object = v).
Proof.
  unfold read, bind, field, try_catch, host, assign, ret.
  destruct (nativeJSON this) eqn:Hn.
  - destruct (JSON_parse json filter) as [v|e] eqn:Hp;
      destruct (keepData this); simpl;
      eexists; eexists; (split; [reflexivity|]); split;
      try (intros [H|[e' H]]; congruence); congruence.
  - destruct (keepData this); simpl;
      eexists; eexists; (split; [reflexivity|]); split; congruence.
Qed.

Lemma read_never_throws_witness :
  fst (read reference_JSON_parse "{not valid json" None (new_JSONFormat true))
  = Normal JUndefined.
Proof.
  destruct (read_never_throws reference_JSON_parse "{not valid json" None
              (new_JSONFormat true)) as (object & this' & E & Hfail & _).
  rewrite E. simpl. f_equal. apply Hfail.
  right. exists SyntaxError. reflexivity.
Defined.

(** C10.  On an instance whose nativeJSON flag is false, read does not call
    the parser and returns [undefined], whatever the text and the filter;
    the instance is left as it was, but for [data] when keepData is set. *)
Theorem read_without_native_JSON
    (JSON_parse : string -> option reviver -> completion value)
    (json : string) (filter : option reviver) (this : JSONFormat) :
  nativeJSON this = false ->
  read JSON_parse json filter this =
  (Normal JUndefined,
   if keepData this then set_data JUndefined this else this).
Proof.
  intros Hn. unfold read, bind, field, assign, ret. rewrite Hn.
  now destruct (keepData this).
Qed.

Lemma read_without_native_JSON_witness :
  reference_JSON_parse "[1,2,3]" None =
    Normal (JArray [JNumber (Finite 1); JNumber (Finite 2); JNumber (Finite 3)])
  /\ read reference_JSON_parse "[1,2,3]" None (new_JSONFormat false) =
     (Normal JUndefined, new_JSONFormat false).
Proof.
  split.
  - reflexivity.
  - exact (read_without_native_JSON reference_JSON_parse "[1,2,3]" None
             (new_JSONFormat false) eq_refl).
Defined.

(* ================================================================= *)
(** ** The reference parser inverts the host's stringify *)

Lemma length_append (a b : string) :
  length (a ++ b) = (length a + length b)%nat.
Proof. induction a as [|x a IH]; simpl; [reflexivity | now rewrite IH]. Qed.

Lemma follows_value_start (rest : string) :
  follows_value rest = true ->
  skip_whitespace rest = rest /\
  match rest with
  | EmptyString => True
  | String c _ =>
      is_digit c = false /\
      existsb (Ascii.eqb c) ["."; "e"; "E"]%char = false
  end.
Proof.
  destruct rest as [|c rest]; [now split|]. cbn [follows_value existsb].
  rewrite !orb_true_iff, !Ascii.eqb_eq.
  intros [->|[->|[->|H]]]; [| | |discriminate H]; now split.
Qed.

(** *** Numbers *)

Lemma span_digits_uint (d : Decimal.uint) (rest : string) :
  match rest with
  | EmptyString => True
  | String c _ => is_digit c = false
  end ->
  span_digits (DecimalString.NilEmpty.string_of_uint d ++ rest) =
  (DecimalString.NilEmpty.string_of_uint d, rest).
Proof.
  intros Hrest.
  induction d;
    cbn [DecimalString.NilEmpty.string_of_uint append span_digits];
    try (change (is_digit _) with true; cbv iota; now rewrite IHd).
  destruct rest as [|c rest]; [reflexivity|]. cbn [span_digits].
  now rewrite Hrest.
Qed.

Lemma unorm_to_uint (n : N) : Decimal.unorm (N.to_uint n) = N.to_uint n.
Proof.
  now rewrite <- DecimalN.Unsigned.to_of, DecimalN.Unsigned.of_to.
Qed.


Lemma string_of_uint_to_uint (n : N) :
  exists c digits,
    DecimalString.NilEmpty.string_of_uint (N.to_uint n) = String c digits /\
    is_digit c = true.
Proof.
  assert (H : N.to_uint n <> Decimal.Nil).
  { rewrite <- unorm_to_uint. apply DecimalFacts.unorm_nonnil. }
  destruct (N.to_uint n); [contradiction | ..];
    cbn [DecimalString.NilEmpty.string_of_uint];
    eexists; eexists; split; reflexivity.
Qed.

Lemma Z_toString_sign (z : Z) :
  Z_toString z =
  (if z <? 0 then "-" else EmptyString)
  ++ DecimalString.NilEmpty.string_of_uint (N.to_uint (Z.abs_N z)).
Proof.
  unfold Z_toString. destruct z as [|p|p]; cbn; try reflexivity.
  - pose proof (DecimalPos.Unsigned.to_uint_nonnil p).
    now destruct (Pos.to_uint p).
  - pose proof (DecimalPos.Unsigned.to_uint_nonnil p).
    now destruct (Pos.to_uint p).
Qed.


(** *** Strings *)

Lemma parse_characters_quoted (c : ascii) (tail : string) :
  parse_characters (QuoteJSONChar c ++ tail) =
  match parse_characters tail with
  | Some (str, rest) => Some (String c str, rest)
  | None => None
  end.
Proof.
  destruct c as [[] [] [] [] [] [] [] []]; reflexivity.
Qed.

Lemma parse_characters_string (s rest : string) :
  parse_characters (QuoteJSONChars s ++ String "034" rest) = Some (s, rest).
Proof.
  induction s as [|c s IH]; [reflexivity|].
  cbn [QuoteJSONChars]. rewrite append_assoc, parse_characters_quoted.
  now rewrite IH.
Qed.

(** *** Literals *)

Lemma prefix_append (w r : string) : String.prefix w (w ++ r) = true.
Proof.
  induction w as [|x w IH]; cbn; [now destruct r|].
  destruct (ascii_dec x x); [exact IH | contradiction].
Qed.

Lemma substring_all (r : string) : substring 0 (length r) r = r.
Proof. induction r as [|x r IH]; cbn; [reflexivity | now rewrite IH]. Qed.

Lemma parse_literal_append (w r : string) (v : value) :
  parse_literal w v (w ++ r) = Some (v, r).
Proof.
  unfold parse_literal. rewrite prefix_append, length_append.
  replace (length w + length r - length w)%nat with (length r) by lia.
  do 2 f_equal. induction w as [|x w IH]; [apply substring_all | exact IH].
Qed.

(** *** Arrays *)


(** *** Objects *)

Lemma define_property_fresh (k : string) (v : value)
    (acc : list (property value)) :
  existsb (String.eqb k) (map key acc) = false ->
  define_property k v acc = (acc ++ [Property k true (Returns v)])%list.
Proof.
  induction acc as [|p acc IH]; [reflexivity|].
  cbn [map existsb define_property app]. intros H.
  apply orb_false_iff in H as [H1 H2].
  rewrite String.eqb_sym, H1. now rewrite IH.
Qed.

Lemma distinct_app (l1 l2 : list string) (k : string) :
  distinct (l1 ++ k :: l2) = true ->
  existsb (String.eqb k) l1 = false /\
  distinct ((l1 ++ [k]) ++ l2) = true.
Proof.
  rewrite <- app_assoc. cbn [app]. intros H. split; [|exact H].
  induction l1 as [|x l1 IH]; [reflexivity|].
  cbn [app distinct existsb] in *.
  apply andb_true_iff in H as [H1 H2]. rewrite (IH H2), orb_false_r.
  apply negb_true_iff in H1. rewrite existsb_app in H1.
  apply orb_false_iff in H1 as [_ H1]. cbn [existsb] in H1.
  apply orb_false_iff in H1 as [H1 _]. now rewrite String.eqb_sym.
Qed.




Lemma append_String (c : ascii) (t r : string) :
  String c t ++ r = String c (t ++ r).
Proof. reflexivity. Qed.



(* ================================================================= *)
(** ** read after write *)




(* ================================================================= *)
(** ** What the text of write depends on *)

(** A call of write whose argument [pretty] is the flag of the instance *)
Lemma write_run (v : value) (this : JSONFormat) :
  write v (pretty this) this =
  if has_serializer (typeof v) then
    if negb (pretty this) && nativeJSON this then
      (match JSON_stringify v with
       | Normal r => Normal r
       | Throw _ => Normal None
       end, this)
    else
      match serialize write v this with
      | (Normal s, this1) => (Normal (Some s), this1)
      | (Throw _, this1) => (Normal None, this1)
      end
  else (Normal None, this).
Proof.
  rewrite write_unfold.
  unfold write_with, bind, assign, field, try_catch, host, ret.
  rewrite set_pretty_same.
  destruct (has_serializer (typeof v)); [|reflexivity].
  destruct (negb (pretty this) && nativeJSON this).
  - now destruct (JSON_stringify v).
  - now destruct (serialize write v this) as [[s|e] this1].
Qed.

(** The argument [pretty] of write is first stored in the instance. *)
Lemma write_stores_pretty (v : value) (p : bool) (this : JSONFormat) :
  write v p this = write v (pretty (set_pretty p this)) (set_pretty p this).
Proof. rewrite !write_unfold. reflexivity. Qed.

Lemma alike_refl (this : JSONFormat) : alike this this.
Proof. repeat split. Qed.

Lemma alike_set_level (this this' : JSONFormat) (d : Z) :
  alike this this' ->
  alike (set_level (level this + d) this) (set_level (level this' + d) this').
Proof.
  intros (Hp & (Hi & Hs & Hn & Hl) & Hpath). repeat split; cbn; congruence.
Qed.

Lemma alike_whitespace (this this' : JSONFormat) :
  alike this this' ->
  newline_of this' = newline_of this /\ indent_of this' = indent_of this /\
  space_of this' = space_of this.
Proof.
  intros (Hp & (Hi & Hs & Hn & Hl) & _).
  unfold newline_of, indent_of, space_of. now rewrite Hp, Hi, Hs, Hn, Hl.
Qed.

Lemma array_loop_depends (l : list value) :
  Forall text_depends l ->
  forall i pieces this this',
    alike this this' ->
    fst (array_loop write l i pieces this) =
    fst (array_loop write l i pieces this') /\
    alike (snd (array_loop write l i pieces this))
          (snd (array_loop write l i pieces this')).
Proof.
  induction 1 as [|x l Hx _ IH]; intros i pieces this this' A.
  - split; [reflexivity | exact A].
  - rewrite !array_loop_step. destruct (Hx this this' A) as [E A1].
    destruct (write x (pretty this) this) as [[json|e] this1];
      destruct (write x (pretty this') this') as [[json'|e'] this1'];
      cbn [fst snd] in *; try discriminate E.
    + injection E as <-.
      destruct (alike_whitespace _ _ A1) as (En & Ei & _).
      unfold array_pieces. rewrite En, Ei. now apply IH.
    + split; [congruence | exact A1].
Qed.

Lemma object_loop_depends (object ps : list (property value)) :
  Forall (fun p => forall v, get p = Returns v -> text_depends v) ps ->
  forall pieces addComma this this',
    alike this this' ->
    fst (object_loop write object ps pieces addComma this) =
    fst (object_loop write object ps pieces addComma this') /\
    alike (snd (object_loop write object ps pieces addComma this))
          (snd (object_loop write object ps pieces addComma this')).
Proof.
  induction 1 as [|[k o g] ps Hx _ IH]; intros pieces addComma this this' A.
  - split; [reflexivity | exact A].
  - rewrite !object_loop_step.
    destruct (hasOwnProperty object o) as [[|]|e];
      [| now apply IH | split; [reflexivity | exact A]].
    destruct g as [x|]; [|split; [reflexivity | exact A]].
    destruct (Hx x eq_refl this this' A) as [E A1].
    destruct (write x (pretty this) this) as [[json|e] this1];
      destruct (write x (pretty this') this') as [[json'|e'] this1'];
      cbn [fst snd] in *; try discriminate E.
    + injection E as <-.
      destruct (alike_whitespace _ _ A1) as (En & Ei & Es).
      unfold object_pieces. rewrite En, Ei, Es. now apply IH.
    + split; [congruence | exact A1].
Qed.

Lemma write_text_depends (v : value) : text_depends v.
Proof.
  induction v using value_ind; intros this this' A;
    rewrite !write_run;
    pose proof A as (Hp & _ & Hpath); rewrite Hpath;
    cbn [typeof has_serializer existsb String.eqb Ascii.eqb Bool.eqb orb];
    try (split; [reflexivity | exact A]);
    (destruct (negb (pretty this) && nativeJSON this);
     [split; [reflexivity | exact A]|]);
    cbn [serialize ret fst snd]; try (split; [reflexivity | exact A]).
  - (* an array *)
    rewrite !serialize_array_run.
    destruct (array_loop_depends l H 0 ["["] _ _ (alike_set_level _ _ 1 A))
      as [E A1].
    destruct (array_loop write l 0 ["["] (set_level (level this + 1) this))
      as [[pieces|e] this1];
      destruct (array_loop write l 0 ["["] (set_level (level this' + 1) this'))
        as [[pieces'|e'] this1'];
      cbn [fst snd] in *; try discriminate E.
    + injection E as <-. cbv zeta. cbn [fst snd].
      pose proof (alike_set_level _ _ (-1) A1) as A2.
      destruct (alike_whitespace _ _ A2) as (En & Ei & _).
      change (level this1 + -1) with (level this1 - 1) in *.
      change (level this1' + -1) with (level this1' - 1) in *.
      rewrite En, Ei. split; [reflexivity | exact A2].
    + split; [reflexivity | exact A1].
  - (* a plain object *)
    rewrite !serialize_object_run.
    destruct (read_property "constructor" ps) as [c|e];
      [|split; [reflexivity | exact A]].
    destruct (object_loop_depends ps ps H ["{"] false _ _
                (alike_set_level _ _ 1 A)) as [E A1].
    destruct (object_loop write ps ps ["{"] false
                (set_level (level this + 1) this)) as [[pieces|e] this1];
      destruct (object_loop write ps ps ["{"] false
                  (set_level (level this' + 1) this'))
        as [[pieces'|e'] this1'];
      cbn [fst snd] in *; try discriminate E.
    + injection E as <-. cbv zeta. cbn [fst snd].
      pose proof (alike_set_level _ _ (-1) A1) as A2.
      destruct (alike_whitespace _ _ A2) as (En & Ei & _).
      change (level this1 + -1) with (level this1 - 1) in *.
      change (level this1' + -1) with (level this1' - 1) in *.
      rewrite En, Ei. split; [reflexivity | exact A2].
    + split; [reflexivity | exact A1].
Qed.

(** With pretty enabled, the text that write returns depends on the
    instance through [indent], [space], [newline] and [level] alone: it is
    the same with and without native JSON. *)
Theorem pretty_text_depends_on_format (v : value) (this this' : JSONFormat) :
  same_format this this' ->
  fst (write v true this') = fst (write v true this).
Proof.
  intros F. rewrite (write_stores_pretty v true this),
    (write_stores_pretty v true this').
  symmetry. apply write_text_depends. repeat split; apply F.
Qed.

Lemma pretty_text_depends_on_format_witness :
  fst (write roundtrip_value true (new_JSONFormat false)) =
  fst (write roundtrip_value true (new_JSONFormat true)).
Proof.
  apply (pretty_text_depends_on_format roundtrip_value
           (new_JSONFormat true) (new_JSONFormat false)).
  repeat split.
Defined.

(** A write of a value on which no loop of the custom serializers is left
    by a throw leaves the instance so that any later write returns what it
    would have returned before: the earlier call changes no field that the
    text of the later depends on.  (The level is taken to stay among the
    integers on which Number is exact.) *)
Theorem write_repeatable (v w : value) (p q : bool) (this : JSONFormat) :
  level_exact this v = true ->
  loops_finish v = true ->
  fst (write w p (snd (write v q this))) = fst (write w p this).
Proof.
  intros _ Hg.
  rewrite (write_stores_pretty w p this),
    (write_stores_pretty w p (snd (write v q this))).
  symmetry. apply write_text_depends.
  pose proof (write_keeps_settings v (set_pretty q this)) as K.
  rewrite <- write_stores_pretty in K.
  destruct K as (_ & Kn & Ki & Ks & Kl & _).
  destruct (level_discipline_holds v q this) as [_ L].
  repeat split; cbn; try assumption; [now apply L | now rewrite Kn].
Qed.

Lemma write_repeatable_witness :
  fst (write roundtrip_value true
         (snd (write roundtrip_value true (new_JSONFormat true)))) =
  fst (write roundtrip_value true (new_JSONFormat true)).
Proof.
  apply (write_repeatable roundtrip_value roundtrip_value true true
           (new_JSONFormat true)); reflexivity.
Defined.

(* ================================================================= *)
(** ** The level after a loop has been left by a throw *)

Lemma custom_path_kept (this this' : JSONFormat) :
  same_settings this this' ->
  negb (pretty this) && nativeJSON this = false ->
  negb (pretty this') && nativeJSON this' = false.
Proof. intros (-> & -> & _) H. exact H. Qed.

Lemma level_kept_above_le (this this' : JSONFormat) :
  level_kept_above this this' -> level this <= level this'.
Proof. now intros (_ & _ & _ & L). Qed.

Lemma array_loop_level_raised (l : list value) :
  Forall level_raised l ->
  forall i pieces this,
    negb (pretty this) && nativeJSON this = false ->
    forallb loops_finish l = false ->
    level this < level (snd (array_loop write l i pieces this)).
Proof.
  induction 1 as [|x l Hx Hl IH]; intros i pieces this Hc Hg;
    [discriminate Hg|].
  rewrite array_loop_step. cbn [forallb] in Hg.
  destruct (write_normal x (pretty this) this) as [json E].
  pose proof (write_keeps_settings x this) as K.
  destruct (level_discipline_holds x (pretty this) this) as [Kx Bx].
  specialize (Hx this Hc).
  destruct (write x (pretty this) this) as [[json'|e] this1];
    [|discriminate E].
  cbn [fst snd] in *.
  pose proof (custom_path_kept _ _ K Hc) as Hc1.
  destruct (loops_finish x).
  - rewrite <- (Bx eq_refl). apply IH; [exact Hc1 | exact Hg].
  - specialize (Hx eq_refl).
    pose proof (array_loop_level l
                  (Forall_impl _ (fun a _ => level_discipline_holds a) Hl)
                  (i + 1) (array_pieces i pieces json' this1) this1) as [Kl _].
    apply level_kept_above_le in Kl. lia.
Qed.

Lemma object_loop_level_raised (object ps : list (property value)) :
  Forall (fun p => forall v, get p = Returns v -> level_raised v) ps ->
  forall pieces addComma this,
    negb (pretty this) && nativeJSON this = false ->
    forallb (entry_finishes object) ps = false ->
    (exists e,
       fst (object_loop write object ps pieces addComma this) = Throw e) \/
    level this
    < level (snd (object_loop write object ps pieces addComma this)).
Proof.
  induction 1 as [|[k o g] ps Hx Hl IH]; intros pieces addComma this Hc Hg;
    [discriminate Hg|].
  rewrite object_loop_step. cbn [forallb entry_finishes] in Hg.
  destruct (hasOwnProperty object o) as [[|]|e];
    [| now apply IH | left; now exists e].
  destruct g as [x|]; [|left; now exists GetterError].
  destruct (write_normal x (pretty this) this) as [json E].
  pose proof (write_keeps_settings x this) as K.
  destruct (level_discipline_holds x (pretty this) this) as [Kx Bx].
  specialize (Hx x eq_refl this Hc).
  destruct (write x (pretty this) this) as [[json'|e] this1];
    [|discriminate E].
  cbn [fst snd] in *. cbv zeta.
  pose proof (custom_path_kept _ _ K Hc) as Hc1.
  destruct (loops_finish x).
  - rewrite <- (Bx eq_refl). apply IH; [exact Hc1 | exact Hg].
  - specialize (Hx eq_refl). right.
    match goal with
    | |- context [object_loop write object ps ?a ?b this1] =>
        pose proof (object_loop_level object ps
                      (Forall_impl _
                         (fun p _ v _ => level_discipline_holds v) Hl)
                      a b this1) as [Kl _]
    end.
    apply level_kept_above_le in Kl. lia.
Qed.

Lemma write_level_raised (v : value) : level_raised v.
Proof.
  induction v using value_ind; intros this Hc Hg; try discriminate Hg;
    rewrite write_run, Hc;
    cbn [typeof has_serializer existsb String.eqb Ascii.eqb Bool.eqb orb
           serialize].
  - (* an array *)
    rewrite serialize_array_run.
    pose proof (array_loop_level_raised l H 0 ["["]
                  (set_level (level this + 1) this) Hc Hg) as R.
    destruct (array_loop_normal l 0 ["["] (set_level (level this + 1) this))
      as [pieces' E].
    destruct (array_loop write l 0 ["["] (set_level (level this + 1) this))
      as [[pieces|e] this1]; [|discriminate E].
    cbn in *. lia.
  - (* a plain object *)
    rewrite serialize_object_run. rewrite loops_finish_object in Hg.
    destruct (read_property "constructor" ps) as [c|e]; [|discriminate Hg].
    pose proof (object_loop_level_raised ps ps H ["{"] false
                  (set_level (level this + 1) this) Hc Hg) as R.
    pose proof (object_loop_level ps ps
                  (Forall_impl _ (fun p _ v _ => level_discipline_holds v) H)
                  ["{"] false (set_level (level this + 1) this)) as [Kl _].
    apply level_kept_above_le in Kl.
    destruct (object_loop write ps ps ["{"] false
                (set_level (level this + 1) this)) as [[pieces|e] this1];
      cbn in *.
    + destruct R as [[e E]|R]; [discriminate E | lia].
    + lia.
Qed.

(** On the custom path write leaves the level where it was exactly when
    no loop of the serializers is left by a throw: when, in every plain
    object that they enter, every call of [hasOwnProperty] and every read
    of an own property returns.  When one throws, the level ends above
    where it was.  (The level is taken to stay among the integers on which
    Number is exact.) *)
Theorem level_restored_iff (v : value) (p : bool) (this : JSONFormat) :
  negb p && nativeJSON this = false ->
  level_exact this v = true ->
  (level (snd (write v p this)) = level this <-> loops_finish v = true) /\
  (loops_finish v = false -> level this < level (snd (write v p this))).
Proof.
  intros Hc _.
  assert (R : loops_finish v = false ->
              level this < level (snd (write v p this))).
  { intros Hg. rewrite write_stores_pretty.
    change (level this) with (level (set_pretty p this)).
    apply write_level_raised; [exact Hc | exact Hg]. }
  split; [|exact R]. split.
  - intros E. destruct (loops_finish v); [reflexivity|].
    specialize (R eq_refl). lia.
  - apply level_discipline_holds.
Qed.

Lemma level_restored_iff_witness :
  level (new_JSONFormat false) <
  level (snd (write (JArray [JNull; object_hasOwnProperty_1_a2]) false
                (new_JSONFormat false))).
Proof.
  apply (level_restored_iff (JArray [JNull; object_hasOwnProperty_1_a2]) false
           (new_JSONFormat false)); reflexivity.
Defined.

(* ================================================================= *)
(** ** What write leaves alone *)

Lemma array_loop_data (l : list value) :
  Forall keeps_data l ->
  forall i pieces this,
    data (snd (array_loop write l i pieces this)) = data this.
Proof.
  induction 1 as [|x l Hx _ IH]; intros i pieces this; [reflexivity|].
  rewrite array_loop_step. specialize (Hx this).
  destruct (write x (pretty this) this) as [[json|e] this1];
    cbn [snd] in *; [|exact Hx].
  now rewrite IH.
Qed.

Lemma object_loop_data (object ps : list (property value)) :
  Forall (fun p => forall v, get p = Returns v -> keeps_data v) ps ->
  forall pieces addComma this,
    data (snd (object_loop write object ps pieces addComma this))
    = data this.
Proof.
  induction 1 as [|[k o g] ps Hx _ IH]; intros pieces addComma this;
    [reflexivity|].
  rewrite object_loop_step.
  destruct (hasOwnProperty object o) as [[|]|e];
    [| apply IH | reflexivity].
  destruct g as [x|]; [|reflexivity].
  specialize (Hx x eq_refl this).
  destruct (write x (pretty this) this) as [[json|e] this1];
    cbn [snd] in *; [|exact Hx].
  cbv zeta. now rewrite IH.
Qed.

Lemma write_keeps_data (v : value) : keeps_data v.
Proof.
  induction v using value_ind; intros this; rewrite write_set_pretty;
    cbn [typeof has_serializer existsb String.eqb Ascii.eqb Bool.eqb orb andb];
    try reflexivity;
    (destruct (negb (negb (pretty this) && nativeJSON this)); cbn [andb];
     [| reflexivity]);
    cbn [serialize ret snd]; try reflexivity.
  - rewrite serialize_array_run.
    pose proof (array_loop_data l H 0 ["["]
                  (set_level (level this + 1) this)) as K.
    now destruct (array_loop write l 0 ["["] (set_level (level this + 1) this))
      as [[pieces|e] this1].
  - rewrite serialize_object_run.
    destruct (read_property "constructor" ps) as [c|e]; [|reflexivity].
    pose proof (object_loop_data ps ps H ["{"] false
                  (set_level (level this + 1) this)) as K.
    now destruct (object_loop write ps ps ["{"] false
                    (set_level (level this + 1) this))
      as [[pieces|e] this1].
Qed.

(** write stores its argument [pretty] in the instance and changes no
    other field than [level]: the three strings, the flags [nativeJSON]
    and [keepData] and the [data] of the last read are as before. *)
Theorem write_frame (v : value) (p : bool) (this : JSONFormat) :
  pretty (snd (write v p this)) = p /\
  indent (snd (write v p this)) = indent this /\
  space (snd (write v p this)) = space this /\
  newline (snd (write v p this)) = newline this /\
  nativeJSON (snd (write v p this)) = nativeJSON this /\
  keepData (snd (write v p this)) = keepData this /\
  data (snd (write v p this)) = data this.
Proof.
  rewrite write_stores_pretty.
  destruct (write_keeps_settings v (set_pretty p this))
    as (Kp & Kn & Ki & Ks & Kl & Kk).
  pose proof (write_keeps_data v (set_pretty p this)) as Kd.
  repeat split; assumption.
Qed.

(* ================================================================= *)
(** ** When the custom serializers give null *)

Lemma object_loop_throws_iff (object ps : list (property value)) :
  forall pieces addComma this,
    (exists e,
       fst (object_loop write object ps pieces addComma this) = Throw e) <->
    existsb (fun p => match hasOwnProperty object (own p) with
                      | Throw _ => true
                      | Normal false => false
                      | Normal true =>
                          match get p with
                          | Throws => true
                          | Returns _ => false
                          end
                      end) ps = true.
Proof.
  induction ps as [|[k o g] ps IH]; intros pieces addComma this.
  - cbn. split; [intros [e E]; discriminate E | discriminate].
  - rewrite object_loop_step. cbn [existsb own get].
    destruct (hasOwnProperty object o) as [[|]|e].
    + destruct g as [x|].
      * destruct (write_normal x (pretty this) this) as [json E].
        destruct (write x (pretty this) this) as [[json'|e] this1];
          [|discriminate E].
        cbv zeta. apply IH.
      * cbn. split; [reflexivity|]. intros _. now exists GetterError.
    + apply IH.
    + cbn. split; [reflexivity|]. intros _. now exists e.
Qed.

(** On the custom path write returns [null] for a value without a
    serializer and for a plain object on which serialize.object itself
    throws (reading its [constructor] throws, or in its loop a call of
    [hasOwnProperty] or the read of an own property does), and for nothing
    else: what fails deeper is caught by the write of the child, which is
    skipped.  So an array, whose elements the model has as data
    properties, is always written to a string. *)
Theorem write_custom_null_iff (v : value) (p : bool) (this : JSONFormat) :
  negb p && nativeJSON this = false ->
  (fst (write v p this) = Normal None <->
   has_serializer (typeof v) = false \/
   exists ps, v = JObject ps /\ object_throws ps = true) /\
  (forall l, v = JArray l -> exists s, fst (write v p this) = Normal (Some s)).
Proof.
  intros Hc.
  assert (Hnull : fst (write v p this) = Normal None <->
                  has_serializer (typeof v) = false \/
                  exists ps, v = JObject ps /\ object_throws ps = true).
  { rewrite write_stores_pretty, write_run.
    cbn [pretty set_pretty nativeJSON]. rewrite Hc.
    destruct v;
      cbn [typeof has_serializer existsb String.eqb Ascii.eqb Bool.eqb orb
             serialize ret fst];
      try (split; [discriminate | intros [H|(ps & H & _)]; discriminate H]);
      try (split; [now left | reflexivity]).
    - (* an array *)
      rewrite serialize_array_run.
      destruct (array_loop_normal elements 0 ["["]
                  (set_level (level (set_pretty p this) + 1)
                     (set_pretty p this))) as [pieces' E].
      destruct (array_loop write elements 0 ["["] _) as [[pieces|e] this1];
        [|discriminate E].
      split; [discriminate | intros [H|(ps & H & _)]; discriminate H].
    - (* a plain object *)
      rewrite serialize_object_run. unfold object_throws.
      destruct (read_property "constructor" properties) as [c|e] eqn:Ec.
      + pose proof (object_loop_throws_iff properties properties ["{"] false
                      (set_level (level (set_pretty p this) + 1)
                         (set_pretty p this))) as T.
        destruct (object_loop write properties properties ["{"] false _)
          as [[pieces|e] this1]; cbn [fst] in *.
        * split; [discriminate|].
          intros [H|(ps & H & Ht)]; [discriminate H|].
          injection H as <-. rewrite Ec in Ht.
          apply T in Ht as [e Ht]. discriminate Ht.
        * split; [|reflexivity]. intros _. right. exists properties.
          split; [reflexivity|]. rewrite Ec. apply T. now exists e.
      + split; [|reflexivity]. intros _. right. exists properties.
        split; [reflexivity|]. now rewrite Ec. }
  split; [exact Hnull|].
  intros l ->. destruct (write_normal (JArray l) p this) as [[s|] E].
  - now exists s.
  - apply Hnull in E as [E|(ps & E & _)]; discriminate E.
Qed.

Lemma write_custom_null_iff_witness :
  exists s,
    fst (write (JArray [JBigInt 1; object_throwing_getter]) true
           (new_JSONFormat true)) = Normal (Some s).
Proof.
  exact (proj2 (write_custom_null_iff
                  (JArray [JBigInt 1; object_throwing_getter])
                  true (new_JSONFormat true) eq_refl)
           [JBigInt 1; object_throwing_getter] eq_refl).
Defined.

(* ================================================================= *)
(** ** The text of serialize.string *)

Lemma list_ascii_of_string_append (a b : string) :
  list_ascii_of_string (a ++ b) =
  (list_ascii_of_string a ++ list_ascii_of_string b)%list.
Proof. induction a as [|x a IH]; cbn; [reflexivity | now rewrite IH]. Qed.

Lemma QuoteJSONChar_printable (c : ascii) :
  forallb (fun a => 32 <=? charCodeAt a)
    (list_ascii_of_string (QuoteJSONChar c)) = true /\
  (1 <=? length (QuoteJSONChar c))%nat && (length (QuoteJSONChar c) <=? 6)%nat
  = true.
Proof.
  destruct c as [[] [] [] [] [] [] [] []]; vm_compute; split; reflexivity.
Qed.

Lemma QuoteJSONChars_printable (s : string) :
  Forall (fun a => 32 <= charCodeAt a)
    (list_ascii_of_string (QuoteJSONChars s)) /\
  (length s <= length (QuoteJSONChars s) <= 6 * length s)%nat.
Proof.
  induction s as [|c s [IHp IHl]]; [split; [constructor | cbn; lia]|].
  cbn [QuoteJSONChars]. rewrite list_ascii_of_string_append, length_append.
  destruct (QuoteJSONChar_printable c) as [Hp Hl].
  apply andb_true_iff in Hl as [Hl1 Hl2].
  apply Nat.leb_le in Hl1, Hl2. split.
  - apply Forall_app. split; [|exact IHp].
    apply Forall_forall. intros a Ha.
    rewrite forallb_forall in Hp. apply Z.leb_le. now apply Hp.
  - cbn [length]. lia.
Qed.

(** The text of serialize.string holds no character below 0x20, and has
    from 2 to 6 characters for each of the string besides its quotes. *)
Theorem serialize_string_printable (s : string) :
  Forall (fun a => 32 <= charCodeAt a)
    (list_ascii_of_string (serialize_string s)) /\
  (length s + 2 <= length (serialize_string s) <= 6 * length s + 2)%nat.
Proof.
  rewrite <- QuoteJSONString_serialize_string. unfold QuoteJSONString.
  destruct (QuoteJSONChars_printable s) as [Hp Hl].
  rewrite !list_ascii_of_string_append, !length_append. split.
  - apply Forall_app. split; [repeat constructor; vm_compute; discriminate|].
    apply Forall_app. split; [exact Hp|].
    repeat constructor; vm_compute; discriminate.
  - cbn [dquote length]. lia.
Qed.

(** The text of serialize.string tells where it ends: two strings followed
    by anything have the same text only when they are the same string,
    followed by the same. *)
Theorem serialize_string_prefix_free (s1 s2 r1 r2 : string) :
  serialize_string s1 ++ r1 = serialize_string s2 ++ r2 ->
  s1 = s2 /\ r1 = r2.
Proof.
  rewrite <- !QuoteJSONString_serialize_string. unfold QuoteJSONString.
  rewrite !append_assoc. cbn [dquote append]. intros E.
  injection E as E. apply (f_equal parse_characters) in E.
  rewrite !parse_characters_string in E. now injection E.
Qed.

Lemma serialize_string_prefix_free_witness :
  "a\b" = "a\b" /\ "," = ",".
Proof.
  apply (serialize_string_prefix_free "a\b" "a\b" "," ","). reflexivity.
Defined.

(* ================================================================= *)
(** ** The text of serialize.date *)

Lemma Z_range_forallb (P : Z -> bool) (n : Z) :
  forallb P (map Z.of_nat (seq 0 (Z.to_nat n))) = true ->
  forall z, 0 <= z < n -> P z = true.
Proof.
  intros H z Hz. rewrite forallb_forall in H. apply H.
  apply in_map_iff. exists (Z.to_nat z). split; [lia|].
  apply in_seq. lia.
Qed.

Lemma format_length (n : Z) :
  0 <= n <= 99 -> length (format n) = 2%nat.
Proof.
  intros Hn. apply Nat.eqb_eq.
  apply (Z_range_forallb (fun n => (length (format n) =? 2)%nat) 100);
    [vm_compute; reflexivity | lia].
Qed.

Lemma year_length (y : Z) :
  0 <= y <= 9999 ->
  if y <? 1000 then (length (Z_toString y) < 4)%nat
  else length (Z_toString y) = 4%nat.
Proof.
  intros Hy.
  pose proof (Z_range_forallb
                (fun y => if y <? 1000 then (length (Z_toString y) <? 4)%nat
                          else (length (Z_toString y) =? 4)%nat) 10000
                ltac:(vm_compute; reflexivity) y ltac:(lia)) as H.
  cbv beta in H. destruct (y <? 1000).
  - now apply Nat.ltb_lt.
  - now apply Nat.eqb_eq.
Qed.

(** For a Date whose parts are in their ranges, serialize.date gives 21
    characters when the year has four digits; the year is written as it
    is, without zeros in front, so that a year below 1000 gives fewer. *)
Theorem serialize_date_length (d : date) :
  0 <= getFullYear d <= 9999 ->
  0 <= getMonth d <= 11 ->
  1 <= getDate d <= 31 ->
  0 <= getHours d <= 23 ->
  0 <= getMinutes d <= 59 ->
  0 <= getSeconds d <= 59 ->
  (1000 <= getFullYear d -> length (serialize_date d) = 21%nat) /\
  (getFullYear d < 1000 -> (length (serialize_date d) < 21)%nat).
Proof.
  intros Hy Hm Hd Hh Hmin Hs. unfold serialize_date.
  rewrite !length_append.
  rewrite !format_length by lia.
  pose proof (year_length (getFullYear d) Hy) as Y.
  cbn [dquote length]. split; intros H.
  - replace (getFullYear d <? 1000) with false in Y
      by (symmetry; apply Z.ltb_ge; lia).
    rewrite Y. reflexivity.
  - replace (getFullYear d <? 1000) with true in Y
      by (symmetry; apply Z.ltb_lt; lia).
    lia.
Qed.

Lemma serialize_date_length_witness :
  length (serialize_date date_2024_01_05) = 21%nat.
Proof.
  apply (serialize_date_length date_2024_01_05); cbn; lia.
Defined.

(* ================================================================= *)
(** ** writeIndent *)

Lemma join_repeat_length (x : string) (n : nat) :
  length (join (repeat x n)) = (n * length x)%nat.
Proof.
  induction n as [|n IH]; [reflexivity|].
  cbn [repeat]. rewrite join_cons, length_append, IH. lia.
Qed.

(** writeIndent leaves the instance as it is.  It returns the empty string
    when pretty is disabled or the level is not positive, and otherwise
    the indent once for each level: one level deeper it returns the indent
    and then what it returns now. *)
Theorem writeIndent_text (this : JSONFormat) :
  exists s,
    writeIndent this = (Normal s, this) /\
    (pretty this = false \/ level this <= 0 -> s = EmptyString) /\
    (pretty this = true ->
     length s = (Z.to_nat (level this) * length (indent this))%nat /\
     (0 <= level this ->
      fst (writeIndent (set_level (level this + 1) this)) =
      Normal (indent this ++ s))).
Proof.
  unfold writeIndent. eexists. split; [reflexivity|]. split.
  - intros [->|Hl]; [reflexivity|].
    replace (Z.to_nat (level this)) with 0%nat by lia.
    now destruct (pretty this).
  - intros Hp. split; [rewrite Hp; apply join_repeat_length|].
    intros Hl. cbn [fst pretty set_level level indent]. rewrite Hp. f_equal.
    replace (Z.to_nat (level this + 1)) with (S (Z.to_nat (level this)))
      by lia.
    cbn [repeat]. apply join_cons.
Qed.

(* ================================================================= *)
(** ** What read leaves in the instance *)

(** read changes nothing in the instance but [data], and that only when
    keepData is set: then [data] is what read returns, so that a text the
    parser refuses, or a host without native JSON, puts [undefined] in the
    place of what an earlier read had left there. *)
Theorem read_stores_data
    (JSON_parse : string -> option reviver -> completion value)
    (json : string) (filter : option reviver) (this : JSONFormat) :
  exists object,
    read JSON_parse json filter this =
    (Normal object, if keepData this then set_data object this else this) /\
    (keepData this = true ->
     nativeJSON this = false \/ (exists e, JSON_parse json filter = Throw e) ->
     data (snd (read JSON_parse json filter this)) = JUndefined).
Proof.
  unfold read, bind, field, try_catch, host, assign, ret.
  destruct (nativeJSON this) eqn:Hn.
  - destruct (JSON_parse json filter) as [v|e] eqn:Hp;
      destruct (keepData this); cbn;
      eexists; (split; [reflexivity|]); intros Hk H;
      try discriminate Hk; try reflexivity.
    destruct H as [H|[e H]]; discriminate H.
  - destruct (keepData this); cbn;
      eexists; (split; [reflexivity|]); intros Hk H;
      try discriminate Hk; reflexivity.
Qed.

(* ================================================================= *)
(** ** The reference parser reads the pretty text back *)

(** *** Whitespace *)

Lemma whitespace_append (a b : string) :
  whitespace (a ++ b) = whitespace a && whitespace b.
Proof.
  induction a as [|x a IH]; cbn; [reflexivity|].
  now rewrite IH, andb_assoc.
Qed.

Lemma whitespace_join_repeat (x : string) (n : nat) :
  whitespace x = true -> whitespace (join (repeat x n)) = true.
Proof.
  intros Hx. induction n as [|n IH]; [reflexivity|].
  cbn [repeat]. now rewrite join_cons, whitespace_append, Hx, IH.
Qed.

Lemma skip_whitespace_append (ws s : string) :
  whitespace ws = true -> skip_whitespace (ws ++ s) = skip_whitespace s.
Proof.
  induction ws as [|c ws IH]; cbn [whitespace append skip_whitespace];
    intros H; [reflexivity|].
  apply andb_true_iff in H as [-> H]. now apply IH.
Qed.

Lemma skip_whitespace_start (c : ascii) (s : string) :
  is_whitespace c = false -> skip_whitespace (String c s) = String c s.
Proof. intros H. cbn [skip_whitespace]. now rewrite H. Qed.

Lemma parse_value_whitespace (ws s : string) (fuel : nat) :
  whitespace ws = true -> parse_value fuel (ws ++ s) = parse_value fuel s.
Proof.
  intros H. destruct fuel as [|fuel]; [reflexivity|].
  cbn [parse_value]. now rewrite skip_whitespace_append.
Qed.

Lemma parse_elements_whitespace (ws s : string) (fuel : nat) :
  whitespace ws = true ->
  parse_elements fuel (ws ++ s) = parse_elements fuel s.
Proof.
  intros H. destruct fuel as [|fuel]; [reflexivity|].
  cbn [parse_elements]. now rewrite parse_value_whitespace.
Qed.

Lemma parse_members_whitespace (ws s : string) (fuel : nat)
    (acc : list (property value)) :
  whitespace ws = true ->
  parse_members fuel (ws ++ s) acc = parse_members fuel s acc.
Proof.
  intros H. destruct fuel as [|fuel]; [reflexivity|].
  cbn [parse_members]. now rewrite skip_whitespace_append.
Qed.

(** With pretty enabled and whitespace for the three strings, what the
    three helpers return is whitespace. *)
Lemma whitespace_pieces (this : JSONFormat) :
  pretty this = true -> whitespace_settings this = true ->
  whitespace (newline_of this) = true /\
  whitespace (indent_of this) = true /\
  whitespace (space_of this) = true.
Proof.
  unfold whitespace_settings, newline_of, indent_of, space_of.
  intros -> H. apply andb_true_iff in H as [H Hn].
  apply andb_true_iff in H as [Hi Hs].
  repeat split; try assumption. now apply whitespace_join_repeat.
Qed.

Lemma whitespace_settings_kept (this this' : JSONFormat) :
  same_settings this this' ->
  pretty this = true -> whitespace_settings this = true ->
  pretty this' = true /\ whitespace_settings this' = true.
Proof.
  unfold whitespace_settings.
  intros (Kp & _ & Ki & Ks & Kn & _) Hp Hw.
  now rewrite Kp, Ki, Ks, Kn.
Qed.

(** *** Numbers *)

Lemma whitespace_not_digit (c : ascii) :
  is_whitespace c = true ->
  is_digit c = false /\ existsb (Ascii.eqb c) ["."; "e"; "E"]%char = false.
Proof.
  destruct c as [[] [] [] [] [] [] [] []]; try discriminate; now split.
Qed.

Lemma follows_after (rest : string) :
  follows_value (skip_whitespace rest) = true ->
  match rest with
  | EmptyString => True
  | String c _ =>
      is_digit c = false /\
      existsb (Ascii.eqb c) ["."; "e"; "E"]%char = false
  end.
Proof.
  destruct rest as [|c rest]; [intros; exact I|].
  cbn [skip_whitespace]. destruct (is_whitespace c) eqn:W.
  - intros _. now apply whitespace_not_digit.
  - intros H. now apply (follows_value_start (String c rest)) in H as [_ H].
Qed.

Lemma parse_natural_digits (n : N) (rest : string) :
  follows_value (skip_whitespace rest) = true ->
  parse_natural (DecimalString.NilEmpty.string_of_uint (N.to_uint n) ++ rest) =
  Some (Z.of_N n, rest).
Proof.
  intros Hrest. apply follows_after in Hrest.
  unfold parse_natural. rewrite span_digits_uint.
  - rewrite DecimalString.NilEmpty.usu, unorm_to_uint.
    rewrite (Decimal.internal_uint_dec_lb _ _ eq_refl).
    rewrite DecimalN.Unsigned.of_to.
    destruct rest as [|c rest]; [reflexivity|].
    destruct Hrest as [_ ->]. reflexivity.
  - destruct rest as [|c rest]; [exact I | apply Hrest].
Qed.

Lemma parse_value_integer (z : Z) (rest : string) (fuel : nat) :
  follows_value (skip_whitespace rest) = true ->
  parse_value (S fuel) (Z_toString z ++ rest) =
  Some (JNumber (Finite z), rest).
Proof.
  intros Hrest. rewrite Z_toString_sign.
  destruct (string_of_uint_to_uint (Z.abs_N z)) as (c & digits & E & Hc).
  destruct (z <? 0) eqn:Hz.
  - cbn [append parse_value skip_whitespace is_whitespace existsb
           Ascii.eqb Bool.eqb orb].
    rewrite parse_natural_digits by exact Hrest.
    do 4 f_equal. apply Z.ltb_lt in Hz. rewrite N2Z.inj_abs_N. lia.
  - cbn [append].
    pose proof (parse_natural_digits (Z.abs_N z) rest Hrest) as P.
    rewrite E in *. cbn [append parse_value skip_whitespace].
    assert (Hw : is_whitespace c = false).
    { destruct c as [[] [] [] [] [] [] [] []]; try reflexivity;
        discriminate Hc. }
    assert (Hm : Ascii.eqb c "-" = false).
    { destruct c as [[] [] [] [] [] [] [] []]; try reflexivity;
        discriminate Hc. }
    rewrite Hw, Hm, Hc. cbn [append] in P. rewrite P.
    do 4 f_equal. apply Z.ltb_ge in Hz. rewrite N2Z.inj_abs_N. lia.
Qed.

(** *** write with pretty enabled *)

Lemma write_pretty_run (v : value) (this : JSONFormat) :
  pretty this = true ->
  has_serializer (typeof v) = true ->
  write v true this =
  match serialize write v this with
  | (Normal s, this1) => (Normal (Some s), this1)
  | (Throw _, this1) => (Normal None, this1)
  end.
Proof.
  intros Hp Hs. rewrite <- Hp at 1. rewrite write_run, Hs, Hp. reflexivity.
Qed.

Lemma write_pretty_settings (v : value) (this : JSONFormat) :
  pretty this = true ->
  same_settings this (snd (write v true this)).
Proof.
  intros Hp. pose proof (write_keeps_settings v this) as K.
  now rewrite Hp in K.
Qed.

Ltac lengths :=
  repeat (progress (rewrite ?length_append in *; cbn [length] in * )); lia.

(** *** Arrays *)

(** The loop of serialize.array past the first element: what it adds to
    the pieces is read, after the text of an element, as the rest of the
    array. *)
Lemma array_loop_pretty (l : list value) :
  Forall pretty_parsed_back l ->
  forallb json_value l = true ->
  forallb ordinary l = true ->
  forall i pieces this,
    0 < i -> pretty this = true -> whitespace_settings this = true ->
    exists txt pieces' this',
      array_loop write l i pieces this = (Normal pieces', this') /\
      same_settings this this' /\
      join pieces' = join pieces ++ txt /\
      forall v c t,
        (forall rest fuel,
            follows_value (skip_whitespace rest) = true ->
            (2 * length (String c t ++ rest) < fuel)%nat ->
            parse_value fuel (String c t ++ rest) = Some (v, rest)) ->
        forall tail rest fuel,
          whitespace tail = true ->
          (2 * length (String c t ++ txt ++ tail ++ String "]" rest) + 1
           < fuel)%nat ->
          parse_elements fuel (String c t ++ txt ++ tail ++ String "]" rest) =
          Some (v :: l, rest).
Proof.
  induction 1 as [|x l Hx _ IH]; intros Hj Ho i pieces this Hi Hp Hw.
  - exists EmptyString, pieces, this. split; [reflexivity|].
    split; [apply same_settings_refl|].
    split; [now rewrite append_empty_r|].
    intros v c t Pv tail rest [|fuel] Ht Hf; [lia|].
    cbn [append] in *. cbn [parse_elements].
    pose proof (Pv (tail ++ String "]" rest) fuel) as P. cbn [append] in P.
    rewrite P.
    + rewrite skip_whitespace_append by exact Ht. reflexivity.
    + rewrite skip_whitespace_append by exact Ht. reflexivity.
    + lengths.
  - cbn [forallb] in Hj, Ho. apply andb_true_iff in Hj as [Hjx Hjl].
    apply andb_true_iff in Ho as [Hox Hol].
    rewrite array_loop_step, Hp.
    destruct (Hx Hjx Hox this Hp Hw)
      as (c1 & t1 & this1 & E1 & Hw1 & Hb1 & P1).
    pose proof (write_pretty_settings x this Hp) as K1.
    rewrite E1 in *. cbn [snd] in K1.
    destruct (whitespace_settings_kept _ _ K1 Hp Hw) as [Hp1 Hws1].
    destruct (whitespace_pieces this1 Hp1 Hws1) as (Wn & Wi & _).
    destruct (IH Hjl Hol (i + 1)
                (array_pieces i pieces (Some (String c1 t1)) this1) this1
                ltac:(lia) Hp1 Hws1)
      as (txt & pieces' & this' & El & Kl & Ej & Pl).
    exists ("," ++ newline_of this1 ++ indent_of this1 ++ String c1 t1 ++ txt),
      pieces', this'.
    split; [exact El|].
    split; [eapply same_settings_trans; eassumption|].
    split.
    + rewrite Ej. unfold array_pieces.
      replace (0 <? i) with true by (symmetry; apply Z.ltb_lt; lia).
      rewrite !join_app, !join_cons. cbn [join String.concat].
      rewrite ?append_assoc. cbn [append]. rewrite ?append_assoc.
      reflexivity.
    + intros v c t Pv tail rest [|fuel] Ht Hf; [lia|].
      rewrite !append_assoc in *. cbn [append] in *.
      cbn [parse_elements].
      pose proof (Pv (String "," (newline_of this1 ++ indent_of this1 ++
                                   String c1 (t1 ++ txt ++ tail ++
                                              String "]" rest)))
                    fuel eq_refl) as P.
      cbn [append] in P. rewrite P by lengths.
      cbn [skip_whitespace is_whitespace existsb Ascii.eqb Bool.eqb orb].
      rewrite !parse_elements_whitespace by assumption.
      pose proof (Pl x c1 t1 P1 tail rest fuel Ht) as Q.
      rewrite ?append_assoc in Q. cbn [append] in Q.
      rewrite Q; [reflexivity | lengths].
Qed.

(** *** Objects *)

(** One member: the key, the colon, whitespace and the value *)
Lemma parse_member (k : string) (x : value) (c : ascii) (t sp tail : string)
    (acc : list (property value)) (fuel : nat) :
  (forall rest fuel,
      follows_value (skip_whitespace rest) = true ->
      (2 * length (String c t ++ rest) < fuel)%nat ->
      parse_value fuel (String c t ++ rest) = Some (x, rest)) ->
  whitespace sp = true ->
  existsb (String.eqb k) (map key acc) = false ->
  follows_value (skip_whitespace tail) = true ->
  (2 * length (String c t ++ tail) < fuel)%nat ->
  parse_members (S fuel)
    (QuoteJSONString k ++ String ":" (sp ++ String c t ++ tail)) acc =
  match skip_whitespace tail with
  | EmptyString => None
  | String c' rest' =>
      if Ascii.eqb c' ","
      then parse_members fuel rest'
             (acc ++ [Property k true (Returns x)])%list
      else if Ascii.eqb c' "}"
           then Some ((acc ++ [Property k true (Returns x)])%list, rest')
           else None
  end.
Proof.
  intros Pv Hsp Hk Ht Hf.
  unfold QuoteJSONString. rewrite !append_assoc.
  cbn [dquote append parse_members skip_whitespace is_whitespace existsb
         Ascii.eqb Bool.eqb orb].
  rewrite parse_characters_string.
  cbn [skip_whitespace is_whitespace existsb Ascii.eqb Bool.eqb orb].
  rewrite parse_value_whitespace by exact Hsp.
  change (String c (t ++ tail)) with (String c t ++ tail).
  rewrite (Pv tail fuel Ht Hf). cbv zeta.
  now rewrite (define_property_fresh k x acc Hk).
Qed.

(** The loop of serialize.object past the first pair: what it adds to the
    pieces is read, after the text of a member, as the rest of the
    object. *)
Lemma object_loop_pretty (object ps : list (property value)) :
  hasOwnProperty_intact object = true ->
  Forall (fun p => forall v, get p = Returns v -> pretty_parsed_back v) ps ->
  forallb (fun p => match p with
                    | Property _ true (Returns x) => json_value x
                    | _ => false
                    end) ps = true ->
  forallb (fun p => match p with
                    | Property _ _ (Returns x) => ordinary x
                    | Property _ _ Throws => true
                    end) ps = true ->
  forall pieces this,
    pretty this = true -> whitespace_settings this = true ->
    exists txt pieces' this',
      object_loop write object ps pieces true this
      = (Normal pieces', this') /\
      same_settings this this' /\
      join pieces' = join pieces ++ txt /\
      forall k x c t,
        (forall rest fuel,
            follows_value (skip_whitespace rest) = true ->
            (2 * length (String c t ++ rest) < fuel)%nat ->
            parse_value fuel (String c t ++ rest) = Some (x, rest)) ->
        forall acc sp tail rest fuel,
          whitespace sp = true -> whitespace tail = true ->
          distinct (map key (acc ++ Property k true (Returns x) :: ps))
          = true ->
          (2 * length (QuoteJSONString k ++
                       String ":" (sp ++ String c t ++ txt ++ tail ++
                                   String "}" rest)) + 1 < fuel)%nat ->
          parse_members fuel
            (QuoteJSONString k ++
             String ":" (sp ++ String c t ++ txt ++ tail ++ String "}" rest))
            acc =
          Some ((acc ++ Property k true (Returns x) :: ps)%list, rest).
Proof.
  intros Hh.
  induction 1 as [|[k1 o g] ps Hx _ IH]; intros Hj Ho pieces this Hp Hw.
  - exists EmptyString, pieces, this. split; [reflexivity|].
    split; [apply same_settings_refl|].
    split; [now rewrite append_empty_r|].
    intros k x c t Pv acc sp tail rest [|fuel] Hsp Ht Hd Hf; [lia|].
    rewrite map_app in Hd. cbn [map key] in Hd.
    apply distinct_app in Hd as [Hk _].
    cbn [append] in *.
    pose proof (parse_member k x c t sp (tail ++ String "}" rest) acc fuel
                  Pv Hsp Hk) as Q.
    cbn [append] in Q. rewrite Q.
    + rewrite skip_whitespace_append by exact Ht. reflexivity.
    + rewrite skip_whitespace_append by exact Ht. reflexivity.
    + lengths.
  - cbn [forallb] in Hj, Ho. apply andb_true_iff in Hj as [Hjx Hjl].
    apply andb_true_iff in Ho as [Hox Hol].
    destruct o; [|discriminate Hjx].
    destruct g as [x1|]; [|discriminate Hjx].
    rewrite object_loop_step, (hasOwnProperty_intact_own object true Hh), Hp.
    destruct (Hx x1 eq_refl Hjx Hox this Hp Hw)
      as (c1 & t1 & this1 & E1 & Hw1 & Hb1 & P1).
    pose proof (write_pretty_settings x1 this Hp) as K1.
    rewrite E1 in *. cbn [snd] in K1.
    destruct (whitespace_settings_kept _ _ K1 Hp Hw) as [Hp1 Hws1].
    destruct (whitespace_pieces this1 Hp1 Hws1) as (Wn & Wi & Ws).
    cbv zeta. cbn [object_pieces fst snd].
    match goal with
    | |- context [object_loop write object ps ?a true this1] =>
        destruct (IH Hjl Hol a this1 Hp1 Hws1)
          as (txt & pieces' & this' & El & Kl & Ej & Pl)
    end.
    exists ("," ++ newline_of this1 ++ indent_of this1 ++
            QuoteJSONString k1 ++
            String ":" (space_of this1 ++ String c1 t1 ++ txt)),
      pieces', this'.
    split; [exact El|].
    split; [eapply same_settings_trans; eassumption|].
    split.
    + rewrite Ej, <- QuoteJSONString_serialize_string.
      rewrite !join_app, !join_cons. cbn [join String.concat].
      rewrite ?append_assoc. cbn [append]. rewrite ?append_assoc.
      reflexivity.
    + intros k x c t Pv acc sp tail rest [|fuel] Hsp Ht Hd Hf; [lia|].
      rewrite map_app in Hd. cbn [map key] in Hd.
      apply distinct_app in Hd as [Hk Hd].
      repeat (progress (rewrite ?append_assoc in *; cbn [append] in * )).
      pose proof (parse_member k x c t sp
                    (String "," (newline_of this1 ++ indent_of this1 ++
                                 QuoteJSONString k1 ++
                                 String ":" (space_of this1 ++
                                   String c1 (t1 ++ txt ++ tail ++
                                              String "}" rest))))
                    acc fuel Pv Hsp Hk eq_refl) as Q.
      cbn [append] in Q. rewrite Q by lengths.
      cbn [skip_whitespace is_whitespace existsb Ascii.eqb Bool.eqb orb].
      rewrite !parse_members_whitespace by assumption.
      pose proof (Pl k1 x1 c1 t1 P1
                    (acc ++ [Property k true (Returns x)])%list
                    (space_of this1) tail rest fuel Ws Ht) as R.
      rewrite ?append_assoc in R. cbn [append] in R.
      rewrite R; [now rewrite <- app_assoc | | lengths].
      rewrite !map_app. exact Hd.
Qed.

(** *** Every value of JSON *)

Lemma pretty_parsed_back_holds (v : value) : pretty_parsed_back v.
Proof.
  induction v using value_ind; intros Hv Ho this Hp Hw; try discriminate Hv;
    match goal with
    | |- context [write ?v true this] =>
        rewrite (write_pretty_run v this Hp eq_refl)
    end; cbn [serialize ret].
  - (* null *)
    exists "n"%char, "ull", this. repeat split.
    intros rest [|fuel] _ Hf; [cbn in Hf; lia|].
    exact (parse_literal_append "null" rest JNull).
  - (* a boolean *)
    destruct b.
    + exists "t"%char, "rue", this. repeat split.
      intros rest [|fuel] _ Hf; [cbn in Hf; lia|].
      exact (parse_literal_append "true" rest (JBoolean true)).
    + exists "f"%char, "alse", this. repeat split.
      intros rest [|fuel] _ Hf; [cbn in Hf; lia|].
      exact (parse_literal_append "false" rest (JBoolean false)).
  - (* a finite number *)
    destruct n as [| | |z]; try discriminate Hv.
    cbn [serialize_number isFinite String_of_number].
    assert (Hs : exists c text,
               Z_toString z = String c text /\
               is_whitespace c = false /\ Ascii.eqb c "]" = false).
    { rewrite Z_toString_sign.
      destruct (string_of_uint_to_uint (Z.abs_N z)) as (c & digits & -> & Hc).
      destruct (z <? 0); cbn [append].
      - eexists; eexists; repeat split.
      - exists c, digits.
        destruct c as [[] [] [] [] [] [] [] []]; try discriminate Hc;
          repeat split. }
    destruct Hs as (c & text & E & Hwc & Hb). exists c, text, this.
    rewrite <- E. repeat split; try assumption.
    intros rest [|fuel] Hr Hf; [lia|].
    now apply parse_value_integer.
  - (* a string *)
    rewrite <- QuoteJSONString_serialize_string.
    exists "034"%char, (QuoteJSONChars s ++ dquote), this. repeat split.
    intros rest [|fuel] _ Hf; [lia|].
    rewrite append_String, append_assoc.
    cbn [append parse_value skip_whitespace is_whitespace existsb
           Ascii.eqb Bool.eqb orb is_digit charCodeAt N_of_ascii N_of_digits
           andb Z.leb Z.compare Z.of_N N.add N.mul Pos.compare
           Pos.compare_cont].
    change (is_digit "034") with false. cbv iota.
    change (dquote ++ rest) with (String "034" rest).
    now rewrite parse_characters_string.
  - (* an array *)
    cbn [json_value ordinary] in Hv, Ho. rewrite serialize_array_run.
    set (this0 := set_level (level this + 1) this).
    assert (Hp0 : pretty this0 = true) by exact Hp.
    assert (Hw0 : whitespace_settings this0 = true) by exact Hw.
    destruct l as [|x l].
    + cbn [array_loop ret]. cbv zeta.
      set (this2 := set_level (level this0 - 1) this0).
      destruct (whitespace_pieces this2 Hp Hw) as (Wn & Wi & _).
      exists "["%char, (newline_of this2 ++ indent_of this2 ++ "]"), this2.
      split; [reflexivity|]. repeat split.
      intros rest [|fuel] _ Hf; [lia|].
      repeat (progress (rewrite ?append_assoc; cbn [append])).
      cbn [parse_value skip_whitespace is_whitespace existsb
             Ascii.eqb Bool.eqb orb is_digit charCodeAt N_of_ascii N_of_digits
             andb Z.leb Z.compare Z.of_N N.add N.mul Pos.compare
             Pos.compare_cont].
      change (is_digit "[") with false. cbv iota.
      rewrite !skip_whitespace_append by assumption. reflexivity.
    + inversion H as [|? ? Hx Hl]; subst.
      cbn [forallb] in Hv, Ho. apply andb_true_iff in Hv as [Hjx Hjl].
      apply andb_true_iff in Ho as [Hox Hol].
      rewrite array_loop_step, Hp0.
      destruct (Hx Hjx Hox this0 Hp0 Hw0)
        as (c1 & t1 & this1 & E1 & Hw1 & Hb1 & P1).
      pose proof (write_pretty_settings x this0 Hp0) as K1.
      rewrite E1 in *. cbn [snd] in K1.
      destruct (whitespace_settings_kept _ _ K1 Hp0 Hw0) as [Hp1 Hws1].
      destruct (whitespace_pieces this1 Hp1 Hws1) as (Wn1 & Wi1 & _).
      destruct (array_loop_pretty l Hl Hjl Hol 1
                  (array_pieces 0 ["["] (Some (String c1 t1)) this1) this1
                  ltac:(lia) Hp1 Hws1)
        as (txt & pieces' & this' & El & Kl & Ej & Pl).
      change (0 + 1) with 1. rewrite El. cbv zeta.
      set (this2 := set_level (level this' - 1) this').
      destruct (whitespace_settings_kept _ _ Kl Hp1 Hws1) as [Hp' Hws'].
      destruct (whitespace_pieces this2 Hp' Hws') as (Wn2 & Wi2 & _).
      exists "["%char,
        (newline_of this1 ++ indent_of this1 ++ String c1 t1 ++ txt ++
         newline_of this2 ++ indent_of this2 ++ "]"), this2.
      split.
      * do 3 f_equal. rewrite join_app, Ej. unfold array_pieces.
        cbn [Z.ltb Z.compare]. rewrite !join_app, !join_cons.
        cbn [join String.concat].
        repeat (progress (rewrite ?append_assoc; cbn [append])).
        reflexivity.
      * repeat split.
        intros rest [|fuel] _ Hf; [lia|].
        repeat (progress (rewrite ?append_assoc in *; cbn [append] in * )).
        cbn [parse_value skip_whitespace is_whitespace existsb
               Ascii.eqb Bool.eqb orb is_digit charCodeAt N_of_ascii
               N_of_digits andb Z.leb Z.compare Z.of_N N.add N.mul
               Pos.compare Pos.compare_cont].
        change (is_digit "[") with false. cbv iota.
        rewrite !skip_whitespace_append by assumption.
        cbn [skip_whitespace]. rewrite Hw1, Hb1.
        pose proof (Pl x c1 t1 P1 (newline_of this2 ++ indent_of this2)
                      rest fuel) as Q.
        repeat (progress (rewrite ?append_assoc in Q; cbn [append] in Q)).
        rewrite Q; [reflexivity | now rewrite whitespace_append, Wn2, Wi2 |].
        lengths.
  - (* a plain object *)
    cbn [json_value ordinary] in Hv, Ho.
    apply andb_true_iff in Hv as [Hv _].
    apply andb_true_iff in Hv as [Hv Hd].
    apply andb_true_iff in Ho as [Hsp Ho]. apply negb_true_iff in Hsp.
    rewrite serialize_object_run.
    destruct (ordinary_reads ps Hsp) as (_ & -> & Hh).
    set (this0 := set_level (level this + 1) this).
    assert (Hp0 : pretty this0 = true) by exact Hp.
    assert (Hw0 : whitespace_settings this0 = true) by exact Hw.
    destruct ps as [|[k o g] ps].
    + cbn [object_loop ret]. cbv zeta.
      set (this2 := set_level (level this0 - 1) this0).
      destruct (whitespace_pieces this2 Hp Hw) as (Wn & Wi & _).
      exists "{"%char, (newline_of this2 ++ indent_of this2 ++ "}"), this2.
      split; [reflexivity|]. repeat split.
      intros rest [|fuel] _ Hf; [lia|].
      repeat (progress (rewrite ?append_assoc; cbn [append])).
      cbn [parse_value skip_whitespace is_whitespace existsb
             Ascii.eqb Bool.eqb orb is_digit charCodeAt N_of_ascii N_of_digits
             andb Z.leb Z.compare Z.of_N N.add N.mul Pos.compare
             Pos.compare_cont].
      change (is_digit "{") with false. cbv iota.
      rewrite !skip_whitespace_append by assumption. reflexivity.
    + inversion H as [|? ? Hx Hl]; subst.
      cbn [forallb] in Hv, Ho. apply andb_true_iff in Hv as [Hjx Hjl].
      apply andb_true_iff in Ho as [Hox Hol].
      destruct o; [|discriminate Hjx].
      destruct g as [x|]; [|discriminate Hjx].
      rewrite object_loop_step, (hasOwnProperty_intact_own _ true Hh), Hp0.
      destruct (Hx x eq_refl Hjx Hox this0 Hp0 Hw0)
        as (c1 & t1 & this1 & E1 & Hw1 & Hb1 & P1).
      pose proof (write_pretty_settings x this0 Hp0) as K1.
      rewrite E1 in *. cbn [snd] in K1.
      destruct (whitespace_settings_kept _ _ K1 Hp0 Hw0) as [Hp1 Hws1].
      destruct (whitespace_pieces this1 Hp1 Hws1) as (Wn1 & Wi1 & Ws1).
      cbv zeta. cbn [object_pieces fst snd].
      match goal with
      | |- context [object_loop write ?o ps ?a true this1] =>
          destruct (object_loop_pretty o ps Hh Hl Hjl Hol a this1 Hp1 Hws1)
            as (txt & pieces' & this' & El & Kl & Ej & Pl)
      end.
      rewrite El.
      set (this2 := set_level (level this' - 1) this').
      destruct (whitespace_settings_kept _ _ Kl Hp1 Hws1) as [Hp' Hws'].
      destruct (whitespace_pieces this2 Hp' Hws') as (Wn2 & Wi2 & _).
      exists "{"%char,
        (newline_of this1 ++ indent_of this1 ++ QuoteJSONString k ++
         String ":" (space_of this1 ++ String c1 t1 ++ txt ++
                     newline_of this2 ++ indent_of this2 ++ "}")), this2.
      split.
      * do 3 f_equal. rewrite join_app, Ej.
        rewrite <- QuoteJSONString_serialize_string.
        rewrite !join_app, !join_cons.
        cbn [join String.concat].
        repeat (progress (rewrite ?append_assoc; cbn [append])).
        reflexivity.
      * repeat split.
        intros rest [|fuel] _ Hf; [lia|].
        repeat (progress (rewrite ?append_assoc in *; cbn [append] in * )).
        cbn [parse_value skip_whitespace is_whitespace existsb
               Ascii.eqb Bool.eqb orb is_digit charCodeAt N_of_ascii
               N_of_digits andb Z.leb Z.compare Z.of_N N.add N.mul
               Pos.compare Pos.compare_cont].
        change (is_digit "{") with false. cbv iota.
        rewrite !skip_whitespace_append by assumption.
        unfold QuoteJSONString at 1.
        repeat (progress (rewrite ?append_assoc; cbn [append dquote])).
        cbn [skip_whitespace is_whitespace existsb Ascii.eqb Bool.eqb orb].
        pose proof (Pl k x c1 t1 P1 [] (space_of this1)
                      (newline_of this2 ++ indent_of this2) rest fuel Ws1)
          as Q.
        unfold QuoteJSONString in Q.
        repeat (progress (rewrite ?append_assoc in Q;
                          cbn [append dquote app] in Q)).
        rewrite Q; [reflexivity | now rewrite whitespace_append, Wn2, Wi2
                   | exact Hd |].
        unfold QuoteJSONString in Hf.
        repeat (progress (rewrite ?append_assoc in Hf;
                          cbn [append dquote] in Hf)).
        lengths.
Qed.

(* ================================================================= *)
(** ** read after write with pretty enabled *)

(** On an instance with native JSON whose three strings are whitespace,
    read after write with pretty enabled returns the value itself for
    every ordinary value of JSON of the model: null, booleans, the integers
    of magnitude up to 2^53, strings, arrays of such values, and objects
    that hold such values in own properties with distinct keys, none made
    of digits and none named constructor, hasOwnProperty or toJSON.  The
    host's parser is the reference parser. *)
Theorem roundtrip_pretty (v : value) (this : JSONFormat) :
  nativeJSON this = true ->
  whitespace_settings this = true ->
  json_value v = true ->
  ordinary v = true ->
  exists text this1,
    write v true this = (Normal (Some text), this1) /\
    fst (read reference_JSON_parse text None this1) = Normal v.
Proof.
  intros Hn Hw Hv Ho.
  rewrite write_stores_pretty. cbn [pretty set_pretty].
  destruct (pretty_parsed_back_holds v Hv Ho (set_pretty true this) eq_refl Hw)
    as (c & text & this1 & E & _ & _ & P).
  exists (String c text), this1. split; [exact E|].
  pose proof (write_pretty_settings v (set_pretty true this) eq_refl) as K.
  rewrite E in K. cbn [snd] in K. destruct K as (_ & Kn & _).
  cbn [nativeJSON set_pretty] in Kn.
  unfold read, bind, field, try_catch, host, assign, ret.
  rewrite Kn, Hn. unfold reference_JSON_parse.
  specialize (P EmptyString (2 * length (String c text) + 2)%nat eq_refl).
  rewrite append_empty_r in P. rewrite P by lia.
  cbn [skip_whitespace]. now destruct (keepData this1).
Qed.

Lemma roundtrip_pretty_witness :
  exists text this1,
    write roundtrip_value true (new_JSONFormat true) =
      (Normal (Some text), this1) /\
    fst (read reference_JSON_parse text None this1) = Normal roundtrip_value.
Proof.
  apply (roundtrip_pretty roundtrip_value (new_JSONFormat true));
    reflexivity.
Defined.

(* ================================================================= *)
(** ** A Date comes back as a string *)

Lemma clean_append (a b : string) : clean a -> clean b -> clean (a ++ b).
Proof.
  unfold clean. rewrite list_ascii_of_string_append. intros Ha Hb.
  apply Forall_app. now split.
Qed.

Ltac clean_chars :=
  unfold clean; cbn [list_ascii_of_string];
  repeat (constructor;
          [unfold clean_char; repeat split;
           [vm_compute; discriminate | discriminate | discriminate]|]);
  try constructor.

Lemma string_of_uint_clean (d : Decimal.uint) :
  clean (DecimalString.NilEmpty.string_of_uint d).
Proof.
  induction d; cbn [DecimalString.NilEmpty.string_of_uint];
    try (change (String ?c ?s) with (String c EmptyString ++ s);
         apply clean_append; [clean_chars | assumption]).
  constructor.
Qed.

Lemma Z_toString_clean (z : Z) : clean (Z_toString z).
Proof.
  rewrite Z_toString_sign. apply clean_append; [|apply string_of_uint_clean].
  destruct (z <? 0); clean_chars.
Qed.

Lemma format_clean (n : Z) : clean (format n).
Proof.
  unfold format. destruct (n <? 10); [|apply Z_toString_clean].
  apply clean_append; [clean_chars | apply Z_toString_clean].
Qed.

Lemma parse_clean_string (s : string) :
  clean s ->
  reference_JSON_parse (dquote ++ s ++ dquote) None = Normal (JString s).
Proof.
  intros Hc. rewrite <- (escape_clean s Hc) at 1.
  rewrite <- replace_escape, <- QuoteJSONChars_replace.
  unfold reference_JSON_parse, dquote.
  match goal with
  | |- context [parse_value ?f _] => destruct f as [|fuel] eqn:Ef; [lia|]
  end.
  cbn [dquote append parse_value skip_whitespace is_whitespace existsb
         Ascii.eqb Bool.eqb orb is_digit charCodeAt N_of_ascii N_of_digits
         andb Z.leb Z.compare Z.of_N N.add N.mul Pos.compare
         Pos.compare_cont].
  change (is_digit "034") with false. cbv iota.
  now rewrite parse_characters_string.
Qed.

(** What serialize.date writes is the text of a string that needs no
    escape, whatever the parts of the Date; so write on the custom path
    followed by read gives that string, not a Date. *)
Theorem date_read_back_as_string (d : date) (this : JSONFormat) :
  nativeJSON this = true ->
  exists s this1,
    clean s /\
    write (JDate d) true this =
      (Normal (Some (dquote ++ s ++ dquote)), this1) /\
    fst (read reference_JSON_parse (dquote ++ s ++ dquote) None this1) =
    Normal (JString s).
Proof.
  intros Hn.
  set (s := Z_toString (getFullYear d) ++ "-" ++
            format (getMonth d + 1) ++ "-" ++
            format (getDate d) ++ "T" ++
            format (getHours d) ++ ":" ++
            format (getMinutes d) ++ ":" ++
            format (getSeconds d)).
  assert (Hc : clean s).
  { unfold s.
    repeat (apply clean_append;
            [first [apply Z_toString_clean | apply format_clean | clean_chars]
            |]).
    apply format_clean. }
  exists s, (set_pretty true this).
  split; [exact Hc|]. split.
  - rewrite write_stores_pretty. cbn [pretty set_pretty].
    rewrite (write_pretty_run (JDate d) (set_pretty true this) eq_refl eq_refl).
    cbn [serialize ret]. unfold serialize_date, s.
    repeat (progress (rewrite ?append_assoc; cbn [append])). reflexivity.
  - unfold read, bind, field, try_catch, host, assign, ret.
    cbn [nativeJSON set_pretty keepData]. rewrite Hn.
    rewrite (parse_clean_string s Hc).
    now destruct (keepData (set_pretty true this)).
Qed.

Lemma date_read_back_as_string_witness :
  exists s this1,
    clean s /\
    write (JDate date_2024_01_05) true (new_JSONFormat true) =
      (Normal (Some (dquote ++ s ++ dquote)), this1) /\
    fst (read reference_JSON_parse (dquote ++ s ++ dquote) None this1) =
    Normal (JString s).
Proof.
  apply (date_read_back_as_string date_2024_01_05 (new_JSONFormat true)).
  reflexivity.
Defined.
